(** * The web session registry of src/web/session_manager.cc

    A shallow embedding of the classes [Session] and [SessionManager] and the
    properties of their change-notification, session-creation and timeout
    code.

    Conventions of the embedding.
    - [int] object ids and [long] timeouts are integers of [Z]; the code does
      no arithmetic on ids; the [long] product [1000 * timeout] is reduced
      into the range of a [long] (an overflow is undefined in C++, and the
      compiled code wraps around).
    - [std::unordered_set<int>] is a [gset Z]; container sizes ([size_t]) are
      natural numbers (the one sum of sizes the code takes is of a set of at
      most ten ids and the length of a vector); the loop index of
      [timerNotify], which the code decrements below zero, is a 64-bit
      unsigned integer with its wrap-around written out.
    - [std::string] is [string], [std::map<std::string,std::string>] is a
      [gmap string string].
    - Each [std::shared_ptr<Session>] slot of the registry owns its own
      [Session] object (the only [push_back] is of a freshly allocated one),
      so the registry is a list of [Session] values.
    - The mutexes are not modelled: every method is one atomic step. *)

From Stdlib Require Import ZArith Lia.
From stdpp Require Import base gmap strings list pretty.

Set Warnings "-clear-no-such-hyp".

(** ** Data *)

(** [struct timespec], as read by [getDeltaMillis]. *)
Record timespec := { tv_sec : Z; tv_nsec : Z }.

(** The members of [Session] that session_manager.cc reads and writes. *)
Record Session := mkSession {
  timeout : Z;
  loggedIn : bool;
  sessionID : string;
  last_access : timespec;
  dict : gmap string string;
  uiUpdateIDs : gset Z;
  updateAll : bool
}.

(** [#define MAX_UI_UPDATE_IDS 10] *)
Definition MAX_UI_UPDATE_IDS : nat := 10.

(** ** Session *)

Module Session.

(** Field updates ([x->f = v]). *)
Definition with_updates (all : bool) (ids : gset Z) (s : Session) : Session :=
  {| timeout := timeout s; loggedIn := loggedIn s; sessionID := sessionID s;
     last_access := last_access s; dict := dict s;
     uiUpdateIDs := ids; updateAll := all |}.

Definition with_dict (d : gmap string string) (s : Session) : Session :=
  {| timeout := timeout s; loggedIn := loggedIn s; sessionID := sessionID s;
     last_access := last_access s; dict := d;
     uiUpdateIDs := uiUpdateIDs s; updateAll := updateAll s |}.

(** Modelled from the spec: [Session::access] is declared in
    session_manager.h, which is not among the sources; it "updates
    lastAccess to now". *)
Definition access (now : timespec) (s : Session) : Session :=
  {| timeout := timeout s; loggedIn := loggedIn s; sessionID := sessionID s;
     last_access := now; dict := dict s;
     uiUpdateIDs := uiUpdateIDs s; updateAll := updateAll s |}.

(** Modelled from the spec: [Session::setID] is an inline member of
    session_manager.h, which is not among the sources; it gives the session
    its [id], the member that [getID] reads. *)
Definition setID (sid : string) (s : Session) : Session :=
  {| timeout := timeout s; loggedIn := loggedIn s; sessionID := sid;
     last_access := last_access s; dict := dict s;
     uiUpdateIDs := uiUpdateIDs s; updateAll := updateAll s |}.

(** [Session::Session(long timeout)]; [now] is the clock read by [access()]. *)
Definition new (tmo : Z) (now : timespec) : Session :=
  access now
    {| timeout := tmo; loggedIn := false; sessionID := "";
       last_access := now; dict := ∅; uiUpdateIDs := ∅; updateAll := false |}.

(** [Session::put] and [Session::get] ([getValueOrDefault] gives the empty
    string for an absent key). *)
Definition put (key value : string) (s : Session) : Session :=
  with_dict (<[key := value]> (dict s)) s.

Definition get (key : string) (s : Session) : string :=
  default "" (dict s !! key).

(** [Session::hasUIUpdateIDs] *)
Definition hasUIUpdateIDs (s : Session) : bool :=
  if updateAll s then true else bool_decide (0 < size (uiUpdateIDs s)).

(** [Session::clearUpdateIDs] *)
Definition clearUpdateIDs (s : Session) : Session :=
  with_updates false ∅ s.

(** [Session::containerChangedUI(const std::vector<int>&)].  [arSize] is the
    length of the vector, duplicates included. *)
Definition containerChangedUI_batch (objectIDs : list Z) (s : Session) : Session :=
  if updateAll s then s
  else
    let arSize := length objectIDs in
    if updateAll s then s
    else if bool_decide (MAX_UI_UPDATE_IDS ≤ size (uiUpdateIDs s) + arSize)
    then with_updates true ∅ s
    else with_updates (updateAll s)
           (foldl (λ ids objectId, {[objectId]} ∪ ids) (uiUpdateIDs s) objectIDs) s.

Section WithConstants.

(** [INVALID_OBJECT_ID] is a macro of common.h, which is not among the
    sources: the development holds for every value of it. *)
Variable INVALID_OBJECT_ID : Z.

(** The order in which a [std::unordered_set<int>] is traversed is left to
    the implementation: any enumeration of the elements. *)
Variable iteration_order : gset Z → list Z.

(** [Session::containerChangedUI(int)] *)
Definition containerChangedUI (objectID : Z) (s : Session) : Session :=
  if bool_decide (objectID = INVALID_OBJECT_ID) then s
  else if negb (updateAll s) then
    if negb (updateAll s) then
      if bool_decide (MAX_UI_UPDATE_IDS ≤ size (uiUpdateIDs s))
      then with_updates true ∅ s
      else with_updates (updateAll s) ({[objectID]} ∪ uiUpdateIDs s) s
    else s
  else s.

(** Modelled from the spec: [toCSV] belongs to util/tools, which is not among
    the sources; it "render[s] the pending id set as a comma-separated
    list": the decimal numerals of the ids in traversal order, joined by
    commas, and the empty string for the empty set. *)
Definition toCSV (ids : gset Z) : string :=
  String.concat "," (pretty <$> iteration_order ids).

(** [Session::getUIUpdateIDs]: the returned string and the session after the
    call. *)
Definition getUIUpdateIDs (s : Session) : string * Session :=
  if negb (hasUIUpdateIDs s) then ("", s)
  else if updateAll s then ("all", with_updates false (uiUpdateIDs s) s)
  else
    let ret := toCSV (uiUpdateIDs s) in
    if negb (String.eqb ret "")
    then (ret, with_updates (updateAll s) ∅ s)
    else (ret, s).

(** The operations on the pending-update state of a session. *)
Inductive op :=
  | ContainerChanged (objectID : Z)
  | ContainerChangedBatch (objectIDs : list Z)
  | GetUIUpdateIDs
  | ClearUpdateIDs.

Definition run_op (o : op) (s : Session) : Session :=
  match o with
  | ContainerChanged objectID => containerChangedUI objectID s
  | ContainerChangedBatch objectIDs => containerChangedUI_batch objectIDs s
  | GetUIUpdateIDs => (getUIUpdateIDs s).2
  | ClearUpdateIDs => clearUpdateIDs s
  end.

Definition run_ops (os : list op) (s : Session) : Session :=
  foldl (λ s o, run_op o s) s os.

End WithConstants.

(** [updateAll] and a non-empty set of ids exclude each other. *)
Definition exclusive_modes (s : Session) : Prop :=
  updateAll s = true → uiUpdateIDs s = ∅.

End Session.

(** ** SessionManager *)

(** The calls the manager makes on the external [Timer]. *)
Inductive TimerCall :=
  | AddTimerSubscriber (interval : Z)
  | RemoveTimerSubscriber.

(** The members of [SessionManager]; [timer] records, in order, the calls
    received by the [Timer] object the manager holds. *)
Record SessionManager := mkSessionManager {
  sessions : list Session;
  accounts : gmap string string;
  timerAdded : bool;
  timer : list TimerCall
}.

(** What a call that can throw gives back. *)
Inductive result (A : Type) :=
  | Ok (a : A)
  | Throw (what : string).
Arguments Ok {A} a.
Arguments Throw {A} what.

(** [size_t] arithmetic is modulo [2^64]. *)
Definition wrap64 (z : Z) : Z := (z mod 2 ^ 64)%Z.

(** The values of a [long] (64 bits, two's complement). *)
Definition long_range (z : Z) : Prop := (- 2 ^ 63 ≤ z < 2 ^ 63)%Z.

(** The [long] that an arithmetic result is stored as: itself when it is in
    range, and its residue modulo [2^64] in the range when it is not. *)
Definition wrap_long (z : Z) : Z := ((z + 2 ^ 63) mod 2 ^ 64 - 2 ^ 63)%Z.

Module SessionManager.

Definition with_sessions (l : list Session) (m : SessionManager) : SessionManager :=
  {| sessions := l; accounts := accounts m;
     timerAdded := timerAdded m; timer := timer m |}.

Definition with_timer (added : bool) (calls : list TimerCall) (m : SessionManager)
  : SessionManager :=
  {| sessions := sessions m; accounts := accounts m;
     timerAdded := added; timer := calls |}.

(** [SessionManager::SessionManager]: [accts] is the account list of the
    configuration. *)
Definition new (accts : gmap string string) : SessionManager :=
  {| sessions := []; accounts := accts; timerAdded := false; timer := [] |}.

(** [SessionManager::getSession]: the first session with the given id, or
    [None] for [nullptr]. *)
Fixpoint getSession_loop (sid : string) (rest : list Session) : option Session :=
  match rest with
  | [] => None
  | s :: rest' =>
      if String.eqb (sessionID s) sid then Some s else getSession_loop sid rest'
  end.

Definition getSession (sid : string) (m : SessionManager) : option Session :=
  getSession_loop sid (sessions m).

(** [SessionManager::getUserPassword] *)
Definition getUserPassword (user : string) (m : SessionManager) : string :=
  default "" (accounts m !! user).

Section WithEnvironment.

(** Macros and helpers of headers that are not among the sources
    (common.h, session_manager.h, util/tools.h): the development holds for
    every value of them. *)
Variable INVALID_OBJECT_ID : Z.
Variable SESSION_TIMEOUT_CHECK_INTERVAL : Z.
Variable getDeltaMillis : timespec → timespec → Z.

(** [generate_random_id] reads and advances the state of a random
    generator. *)
Variable rng : Type.
Variable generate_random_id : rng → string * rng.

(** [SessionManager::checkTimer] *)
Definition checkTimer (m : SessionManager) : SessionManager :=
  if bool_decide (0 < length (sessions m)) && negb (timerAdded m) then
    with_timer true (timer m ++ [AddTimerSubscriber SESSION_TIMEOUT_CHECK_INTERVAL]) m
  else if bool_decide (length (sessions m) ≤ 0) && timerAdded m then
    with_timer false (timer m ++ [RemoveTimerSubscriber]) m
  else m.

(** The [do ... while] loop of [createSession].  [count] is the [int]
    counter (it stays below 102).  The result is the id that left the loop or
    the exception thrown, with the state of the generator; [None] stands for
    an exhausted [fuel]. *)
Fixpoint createSession_loop (fuel : nat) (count : Z) (r : rng) (m : SessionManager)
  : option (result string * rng) :=
  match fuel with
  | O => None
  | S fuel' =>
      let '(sid, r') := generate_random_id r in
      if bool_decide (100 < count)%Z then
        Some (Throw ("There seems to be something wrong with the random numbers. I tried to get a unique id 100 times and failed. last sessionID: " +:+ sid), r')
      else
        let count' := (count + 1)%Z in
        match getSession sid m with
        | Some _ => createSession_loop fuel' count' r' m
        | None => Some (Ok sid, r')
        end
  end.

(** [SessionManager::createSession]; [now] is the clock read by the
    constructor of the session. *)
Definition createSession (tmo : Z) (now : timespec) (r : rng) (m : SessionManager)
  : option (result (Session * SessionManager) * rng) :=
  let newSession := Session.new tmo now in
  match createSession_loop 102 0%Z r m with
  | None => None
  | Some (Throw what, r') => Some (Throw what, r')
  | Some (Ok sid, r') =>
      let newSession := Session.setID sid newSession in
      Some (Ok (newSession,
                checkTimer (with_sessions (sessions m ++ [newSession]) m)), r')
  end.

(** [SessionManager::removeSession]: [rest] is the part of the registry from
    index [i] on; the first match is erased and the method returns. *)
Fixpoint removeSession_loop (sid : string) (i : nat) (rest : list Session)
    (m : SessionManager) : SessionManager :=
  match rest with
  | [] => m
  | s :: rest' =>
      if String.eqb (sessionID s) sid
      then checkTimer (with_sessions (delete i (sessions m)) m)
      else removeSession_loop sid (S i) rest' m
  end.

Definition removeSession (sid : string) (m : SessionManager) : SessionManager :=
  removeSession_loop sid 0 (sessions m) m.

(** The loop shared by the two overloads of
    [SessionManager::containerChangedUI]: [n] iterations from index [i],
    [notify] being the [Session] method called through [sessions[i]]. *)
Fixpoint containerChangedUI_loop (notify : Session → Session) (n i : nat)
    (l : list Session) : list Session :=
  match n with
  | O => l
  | S n' =>
      match l !! i with
      | Some session =>
          containerChangedUI_loop notify n' (S i)
            (if loggedIn session then <[i := notify session]> l else l)
      | None => l
      end
  end.

(** [SessionManager::containerChangedUI(int)] *)
Definition containerChangedUI (objectID : Z) (m : SessionManager) : SessionManager :=
  if bool_decide (length (sessions m) ≤ 0) then m
  else
    with_sessions
      (containerChangedUI_loop (Session.containerChangedUI INVALID_OBJECT_ID objectID)
         (length (sessions m)) 0 (sessions m)) m.

(** [SessionManager::containerChangedUI(const std::vector<int>&)] *)
Definition containerChangedUI_batch (objectIDs : list Z) (m : SessionManager)
  : SessionManager :=
  if bool_decide (length (sessions m) ≤ 0) then m
  else
    with_sessions
      (containerChangedUI_loop (Session.containerChangedUI_batch objectIDs)
         (length (sessions m)) 0 (sessions m)) m.

(** The test of [timerNotify]:
    [getDeltaMillis(session->getLastAccessTime(), &now) > 1000 * session->getTimeout()].
    Both sides are [long]s; the product is computed in [long]. *)
Definition timed_out (now : timespec) (session : Session) : bool :=
  bool_decide (wrap_long (1000 * timeout session)
               < getDeltaMillis (last_access session) now)%Z.

(** The [for] loop of [timerNotify].  [i] is the [size_t] index: after an
    [erase] the body does [i--], which wraps at index 0, and the loop header
    then does [i++].  [None] stands for an exhausted [fuel] or an index out
    of range. *)
Fixpoint timerNotify_loop (fuel : nat) (now : timespec) (i : Z) (m : SessionManager)
  : option SessionManager :=
  match fuel with
  | O => None
  | S fuel' =>
      if bool_decide (i < Z.of_nat (length (sessions m)))%Z then
        match sessions m !! Z.to_nat i with
        | Some session =>
            if timed_out now session then
              let m' := checkTimer (with_sessions (delete (Z.to_nat i) (sessions m)) m) in
              let i' := wrap64 (i - 1)%Z in
              timerNotify_loop fuel' now (wrap64 (i' + 1)%Z) m'
            else timerNotify_loop fuel' now (wrap64 (i + 1)%Z) m
        | None => None
        end
      else Some m
  end.

(** [SessionManager::timerNotify]; [now] is the result of [getTimespecNow]. *)
Definition timerNotify (now : timespec) (m : SessionManager) : option SessionManager :=
  timerNotify_loop (S (length (sessions m))) now 0%Z m.

(** The first [n] ids that [generate_random_id] hands out from state [r]. *)
Fixpoint generated_ids (n : nat) (r : rng) : list string :=
  match n with
  | O => []
  | S n' => let '(sid, r') := generate_random_id r in sid :: generated_ids n' r'
  end.

(** An id collides when a live session carries it. *)
Definition collides (m : SessionManager) (sid : string) : Prop :=
  is_Some (getSession sid m).

(** One structural operation on the registry, with its outcome. *)
Inductive step (m : SessionManager) : SessionManager → Prop :=
  | step_create tmo now r s m' r' :
      createSession tmo now r m = Some (Ok (s, m'), r') → step m m'
  | step_create_throw tmo now r what r' :
      createSession tmo now r m = Some (Throw what, r') → step m m
  | step_remove sid : step m (removeSession sid m)
  | step_timer now m' : timerNotify now m = Some m' → step m m'.

(** A change inside one session made through its pointer (an access, a
    login, a change notification, a [put]): the session keeps its id and its
    slot, and the manager its other members. *)
Inductive touch (m : SessionManager) : SessionManager → Prop :=
  | touch_session i s s' :
      sessions m !! i = Some s → sessionID s' = sessionID s →
      touch m (with_sessions (<[i := s']> (sessions m)) m).

(** What can happen to a manager between its construction and now. *)
Definition move (m m' : SessionManager) : Prop := step m m' ∨ touch m m'.

End WithEnvironment.

(** The subscription flag mirrors the emptiness of the registry. *)
Definition timer_in_sync (m : SessionManager) : Prop :=
  timerAdded m = true ↔ sessions m ≠ [].

End SessionManager.

(** ** Concrete instances

    Values for the constants and helpers the development is parametric in,
    and a few small states, on which the statements below are exercised. *)

Module Sample.

(** A value for [INVALID_OBJECT_ID]. *)
Definition invalid_id : Z := (-333)%Z.

(** A traversal order for id sets. *)
Definition order : gset Z → list Z := elements.

(** A value for [SESSION_TIMEOUT_CHECK_INTERVAL]. *)
Definition interval : Z := 300%Z.

(** Milliseconds from [first] to [second]. *)
Definition delta_millis (first second : timespec) : Z :=
  ((tv_sec second - tv_sec first) * 1000
   + (tv_nsec second - tv_nsec first) `quot` 1000000)%Z.

Definition at_second (sec : Z) : timespec := {| tv_sec := sec; tv_nsec := 0 |}.

(** A generator whose state counts its calls and which hands out [taken] for
    the first [n] calls and [fresh] from then on. *)
Definition ids_then (n : nat) (taken fresh : string) (k : nat) : string * nat :=
  (if k <? n then taken else fresh, S k).

(** A session with the given id, login flag, second of last access, timeout
    and pending ids. *)
Definition session (sid : string) (logged : bool) (last tmo : Z) (ids : list Z)
  : Session :=
  {| timeout := tmo; loggedIn := logged; sessionID := sid;
     last_access := at_second last; dict := ∅;
     uiUpdateIDs := list_to_set ids; updateAll := false |}.

Definition manager (l : list Session) (added : bool) : SessionManager :=
  {| sessions := l; accounts := ∅; timerAdded := added; timer := [] |}.

(** Nine pending ids. *)
Definition nine_pending : Session :=
  session "s" true 0 60 [1; 2; 3; 4; 5; 6; 7; 8; 9]%Z.

(** Two pending ids. *)
Definition two_pending : Session := session "s" true 0 60 [5; 7]%Z.

(** A registry with one logged-in session, one that is not, and one that has
    been idle for long. *)
Definition three_sessions : SessionManager :=
  manager [session "a" true 100 60 []; session "b" false 100 60 [];
           session "c" true 0 10 []] true.

End Sample.

(** ** Notions used by the further properties *)

Module Timer.

(** What becomes of a subscriber of the [Timer] over the calls it received,
    [subscribed] telling whether it is subscribed at the start: [None] when
    it is added while subscribed or removed while not. *)
Fixpoint replay (subscribed : bool) (calls : list TimerCall) : option bool :=
  match calls with
  | [] => Some subscribed
  | AddTimerSubscriber _ :: rest => if subscribed then None else replay true rest
  | RemoveTimerSubscriber :: rest => if subscribed then replay false rest else None
  end.

End Timer.

Module Generator.

Section WithGenerator.

Variable rng : Type.
Variable generate_random_id : rng → string * rng.

(** The state of the generator after [n] calls of [generate_random_id]. *)
Fixpoint after (n : nat) (r : rng) : rng :=
  match n with
  | O => r
  | S n' => after n' (generate_random_id r).2
  end.

End WithGenerator.

End Generator.

Module Sample2.

(** A session holding a scratch entry. *)
Definition with_entry : Session := Session.put "user" "alice" Sample.two_pending.

(** A registry of two sessions, the first of which has been idle for long. *)
Definition two_sessions : SessionManager :=
  Sample.manager [Sample.session "c" true 0 10 []; Sample.session "a" true 100 60 [5%Z]]
    true.

(** An account list. *)
Definition accts : gmap string string := {["alice" := "secret"]}.

(** The session and the manager that the first [createSession] of a manager
    built on [accts] gives, at second 1 and with the id "b". *)
Definition first_created : Session :=
  Session.setID "b" (Session.new 60 (Sample.at_second 1)).

Definition after_create : SessionManager :=
  {| sessions := [first_created]; accounts := accts; timerAdded := true;
     timer := [AddTimerSubscriber Sample.interval] |}.

End Sample2.

(** * Properties of [Session] *)

(** ** Rendering of id sets *)

Lemma pretty_N_go_nonempty (x : N) (s : string) : s ≠ "" → pretty_N_go x s ≠ "".
Proof.
  revert s. induction (N.lt_wf_0 x) as [x _ IH]; intros s Hs.
  destruct (decide (x = 0)%N) as [->|Hx].
  - by rewrite pretty_N_go_0.
  - rewrite pretty_N_go_step by lia.
    apply IH; [apply N.div_lt; lia | done].
Qed.

Lemma pretty_positive_nonempty (p : positive) : pretty p ≠ "".
Proof.
  unfold pretty, pretty_positive, pretty, pretty_N.
  case_decide; [done|].
  rewrite pretty_N_go_step by lia.
  by apply pretty_N_go_nonempty.
Qed.

Lemma pretty_Z_nonempty (z : Z) : pretty z ≠ "".
Proof.
  destruct z as [|p|p]; unfold pretty, pretty_Z; [done| |done].
  apply pretty_positive_nonempty.
Qed.

Lemma concat_nonempty (sep : string) (l : list string) :
  l ≠ [] → Forall (λ x, x ≠ "") l → String.concat sep l ≠ "".
Proof.
  destruct l as [|x [|y l]]; [done| |]; intros _ Hall.
  - by inversion Hall.
  - inversion Hall as [|?? Hx _]; subst. simpl.
    destruct x; [done|]. discriminate.
Qed.

(** The batch overload adds the ids with set semantics. *)
Lemma foldl_insert_ids (objectIDs : list Z) (X : gset Z) :
  foldl (λ ids objectId, {[objectId]} ∪ ids) X objectIDs = list_to_set objectIDs ∪ X.
Proof.
  revert X. induction objectIDs as [|x l IH]; intros X; simpl.
  - set_solver.
  - rewrite IH. set_solver.
Qed.

Section SessionFacts.

Variable INVALID_OBJECT_ID : Z.
Variable iteration_order : gset Z → list Z.

Local Abbreviation changed := (Session.containerChangedUI INVALID_OBJECT_ID).
Local Abbreviation changed_batch := Session.containerChangedUI_batch.
Local Abbreviation toCSV := (Session.toCSV iteration_order).
Local Abbreviation getUIUpdateIDs := (Session.getUIUpdateIDs iteration_order).

(** ** The cap on the pending ids *)

(** C1 (as amended).  For a session that is not in [updateAll] mode: the
    single-id overload, called with an id other than [INVALID_OBJECT_ID],
    switches to [updateAll] and clears the pending set exactly when the set
    already holds [MAX_UI_UPDATE_IDS = 10] ids or more before the call, and
    otherwise inserts the id; the batch overload switches and clears exactly
    when the size of the pending set plus the length of the vector it is
    given (repeated and already pending ids counted) is at least 10, and
    otherwise inserts all the ids.  Insertion has set semantics. *)
Theorem containerChangedUI_cap (s : Session) (objectID : Z) (objectIDs : list Z) :
  updateAll s = false →
  objectID ≠ INVALID_OBJECT_ID →
  (changed objectID s =
     if bool_decide (MAX_UI_UPDATE_IDS ≤ size (uiUpdateIDs s))
     then Session.with_updates true ∅ s
     else Session.with_updates false ({[objectID]} ∪ uiUpdateIDs s) s) ∧
  (changed_batch objectIDs s =
     if bool_decide (MAX_UI_UPDATE_IDS ≤ size (uiUpdateIDs s) + length objectIDs)
     then Session.with_updates true ∅ s
     else Session.with_updates false (list_to_set objectIDs ∪ uiUpdateIDs s) s) ∧
  (updateAll (changed objectID s) = true ↔ 10 ≤ size (uiUpdateIDs s)) ∧
  (updateAll (changed_batch objectIDs s) = true ↔
     10 ≤ size (uiUpdateIDs s) + length objectIDs).
Proof.
  intros Hall Hvalid.
  assert (changed objectID s =
     if bool_decide (MAX_UI_UPDATE_IDS ≤ size (uiUpdateIDs s))
     then Session.with_updates true ∅ s
     else Session.with_updates false ({[objectID]} ∪ uiUpdateIDs s) s) as Hsingle.
  { unfold Session.containerChangedUI.
    rewrite bool_decide_eq_false_2 by done. rewrite Hall. simpl. done. }
  assert (changed_batch objectIDs s =
     if bool_decide (MAX_UI_UPDATE_IDS ≤ size (uiUpdateIDs s) + length objectIDs)
     then Session.with_updates true ∅ s
     else Session.with_updates false (list_to_set objectIDs ∪ uiUpdateIDs s) s) as Hbatch.
  { unfold Session.containerChangedUI_batch.
    rewrite Hall, foldl_insert_ids. done. }
  split_and!; [done | done | |].
  - rewrite Hsingle. clear Hsingle Hbatch. unfold MAX_UI_UPDATE_IDS.
    case_bool_decide; simpl; split; (done || lia).
  - rewrite Hbatch. clear Hsingle Hbatch. unfold MAX_UI_UPDATE_IDS.
    case_bool_decide; simpl; split; (done || lia).
Qed.

(** ** Reading the pending updates *)

Section Rendering.

Hypothesis iteration_order_perm : ∀ X, iteration_order X ≡ₚ elements X.

Lemma toCSV_empty : toCSV ∅ = "".
Proof.
  unfold Session.toCSV.
  assert (iteration_order ∅ = []) as ->; [|done].
  apply Permutation_nil_r. rewrite iteration_order_perm. by rewrite elements_empty.
Qed.

Lemma toCSV_nonempty (X : gset Z) : X ≠ ∅ → toCSV X ≠ "".
Proof.
  intros HX. unfold Session.toCSV. apply concat_nonempty.
  - intros Hnil. apply fmap_nil_inv in Hnil.
    apply HX, leibniz_equiv, elements_empty_inv, Permutation_nil_r.
    by rewrite <- iteration_order_perm, Hnil.
  - apply Forall_fmap, Forall_forall. intros z _. apply pretty_Z_nonempty.
Qed.

Lemma toCSV_eqb_empty (X : gset Z) : String.eqb (toCSV X) "" = bool_decide (X = ∅).
Proof.
  case_bool_decide as HX.
  - subst. by rewrite toCSV_empty.
  - apply String.eqb_neq. by apply toCSV_nonempty.
Qed.

(** C2.  [getUIUpdateIDs] returns the empty string when nothing is pending;
    returns ["all"] and resets [updateAll] when [updateAll] is set; and
    otherwise returns the comma-separated numerals of the pending ids (in
    some order) and clears the set, after which a repeated call returns the
    empty string. *)
Theorem getUIUpdateIDs_drain_on_read (s : Session) :
  let r := getUIUpdateIDs s in
  (updateAll s = false ∧ uiUpdateIDs s = ∅ → r = ("", s)) ∧
  (updateAll s = true →
     r = ("all", Session.with_updates false (uiUpdateIDs s) s)) ∧
  (updateAll s = false ∧ uiUpdateIDs s ≠ ∅ →
     (∃ l, l ≡ₚ elements (uiUpdateIDs s) ∧ r.1 = String.concat "," (pretty <$> l)) ∧
     r.1 ≠ "" ∧
     r.2 = Session.with_updates false ∅ s ∧
     getUIUpdateIDs r.2 = ("", r.2)).
Proof.
  simpl. split_and!.
  - intros [Hall Hids]. unfold Session.getUIUpdateIDs, Session.hasUIUpdateIDs.
    rewrite Hall, Hids, size_empty. done.
  - intros Hall. unfold Session.getUIUpdateIDs, Session.hasUIUpdateIDs.
    rewrite Hall. done.
  - intros [Hall Hids].
    assert (getUIUpdateIDs s
            = (toCSV (uiUpdateIDs s), Session.with_updates false ∅ s)) as ->.
    { unfold Session.getUIUpdateIDs, Session.hasUIUpdateIDs. rewrite Hall.
      rewrite bool_decide_eq_true_2
        by (apply Nat.neq_0_lt_0; intros H0; by apply size_empty_inv, leibniz_equiv in H0).
      simpl. rewrite toCSV_eqb_empty, bool_decide_eq_false_2 by done. done. }
    simpl. split_and!.
    + exists (iteration_order (uiUpdateIDs s)). done.
    + by apply toCSV_nonempty.
    + done.
    + unfold Session.getUIUpdateIDs, Session.hasUIUpdateIDs.
      cbn [updateAll uiUpdateIDs Session.with_updates]. rewrite size_empty. done.
Qed.

End Rendering.

(** ** The two signalling modes exclude each other *)

Lemma run_op_exclusive (o : Session.op) (s : Session) :
  Session.exclusive_modes s →
  Session.exclusive_modes (Session.run_op INVALID_OBJECT_ID iteration_order o s).
Proof.
  unfold Session.exclusive_modes. intros Hs.
  destruct o as [objectID|objectIDs| |]; simpl.
  - unfold Session.containerChangedUI.
    case_bool_decide; [done|].
    destruct (updateAll s) eqn:Hall; simpl; [auto|].
    case_bool_decide; simpl; [done|congruence].
  - unfold Session.containerChangedUI_batch.
    destruct (updateAll s) eqn:Hall; simpl; [auto|].
    case_bool_decide; simpl; [done|congruence].
  - unfold Session.getUIUpdateIDs.
    destruct (Session.hasUIUpdateIDs s); simpl; [|done].
    destruct (updateAll s) eqn:Hall; simpl; [auto|].
    destruct (String.eqb _ _); simpl; congruence.
  - done.
Qed.

(** C3.  Whatever sequence of [containerChangedUI] (either overload),
    [getUIUpdateIDs] and [clearUpdateIDs] is run on a fresh session, the
    pending set is empty whenever [updateAll] is true. *)
Theorem exclusive_modes_invariant (tmo : Z) (now : timespec) (os : list Session.op) :
  Session.exclusive_modes
    (Session.run_ops INVALID_OBJECT_ID iteration_order os (Session.new tmo now)).
Proof.
  unfold Session.run_ops.
  assert (Session.exclusive_modes (Session.new tmo now)) as Hfresh by done.
  revert Hfresh. generalize (Session.new tmo now).
  induction os as [|o os IH]; intros s Hs; simpl; [done|].
  apply IH. by apply run_op_exclusive.
Qed.

(** ** Runs of single-id notifications *)

Lemma changed_below_cap (s : Session) (objectID : Z) :
  updateAll s = false → objectID ≠ INVALID_OBJECT_ID →
  size (uiUpdateIDs s) < 10 →
  changed objectID s = Session.with_updates false ({[objectID]} ∪ uiUpdateIDs s) s.
Proof.
  intros Hall Hvalid Hsize. unfold Session.containerChangedUI, MAX_UI_UPDATE_IDS.
  rewrite bool_decide_eq_false_2 by done. rewrite Hall. simpl.
  rewrite bool_decide_eq_false_2 by lia. done.
Qed.

Lemma changed_at_cap (s : Session) (objectID : Z) :
  updateAll s = false → objectID ≠ INVALID_OBJECT_ID →
  10 ≤ size (uiUpdateIDs s) →
  changed objectID s = Session.with_updates true ∅ s.
Proof.
  intros Hall Hvalid Hsize. unfold Session.containerChangedUI, MAX_UI_UPDATE_IDS.
  rewrite bool_decide_eq_false_2 by done. rewrite Hall. simpl.
  rewrite bool_decide_eq_true_2 by lia. done.
Qed.

Lemma changed_updateAll (s : Session) (objectID : Z) :
  updateAll s = true → changed objectID s = s.
Proof.
  intros Hall. unfold Session.containerChangedUI. rewrite Hall.
  by case_bool_decide.
Qed.

Lemma foldl_changed_updateAll (objectIDs : list Z) (s : Session) :
  updateAll s = true → foldl (λ s objectID, changed objectID s) s objectIDs = s.
Proof.
  intros Hall. induction objectIDs as [|x l IH]; simpl; [done|].
  by rewrite changed_updateAll.
Qed.

Lemma foldl_changed_distinct (objectIDs : list Z) (s : Session) :
  updateAll s = false → NoDup objectIDs → INVALID_OBJECT_ID ∉ objectIDs →
  (∀ x, x ∈ objectIDs → x ∉ uiUpdateIDs s) →
  size (uiUpdateIDs s) + length objectIDs ≤ 10 →
  foldl (λ s objectID, changed objectID s) s objectIDs
    = Session.with_updates false (list_to_set objectIDs ∪ uiUpdateIDs s) s
  ∧ size (list_to_set objectIDs ∪ uiUpdateIDs s : gset Z)
    = size (uiUpdateIDs s) + length objectIDs.
Proof.
  revert s. induction objectIDs as [|x l IH]; intros s Hall Hnd Hvalid Hfresh Hsize.
  - simpl. rewrite (left_id_L ∅ (∪)). split; [|lia].
    destruct s; simpl in *; by subst.
  - apply NoDup_cons in Hnd as [Hx Hnd].
    apply not_elem_of_cons in Hvalid as [Hxv Hvalid].
    simpl in Hsize. simpl foldl.
    rewrite changed_below_cap by (done || lia).
    assert (size ({[x]} ∪ uiUpdateIDs s) = S (size (uiUpdateIDs s))) as Hsz.
    { rewrite size_union by (specialize (Hfresh x); set_solver).
      by rewrite size_singleton. }
    destruct (IH (Session.with_updates false ({[x]} ∪ uiUpdateIDs s) s))
      as [Hfold Hcount]; [done|done|done| | |].
    + intros y Hy. cbn [uiUpdateIDs Session.with_updates].
      specialize (Hfresh y). set_solver.
    + cbn [uiUpdateIDs Session.with_updates]. lia.
    + cbn [uiUpdateIDs Session.with_updates] in Hfold, Hcount.
      assert (list_to_set (x :: l) ∪ uiUpdateIDs s
              = (list_to_set l ∪ ({[x]} ∪ uiUpdateIDs s) : gset Z)) as ->
        by set_solver.
      split; [by rewrite Hfold | simpl; lia].
Qed.

(** More than ten distinct valid ids leave a fresh session in [updateAll]
    mode with no pending id. *)
Lemma changed_past_cap (tmo : Z) (now : timespec) (objectIDs : list Z) :
  NoDup objectIDs → INVALID_OBJECT_ID ∉ objectIDs → 10 < length objectIDs →
  foldl (λ s objectID, changed objectID s) (Session.new tmo now) objectIDs
    = Session.with_updates true ∅ (Session.new tmo now).
Proof.
  intros Hnd Hvalid Hlen.
  rewrite <- (take_drop 10 objectIDs) in Hnd, Hvalid |- *.
  apply NoDup_app in Hnd as (Hnd & _ & _).
  apply not_elem_of_app in Hvalid as [Hvalid Hvalid'].
  destruct (drop 10 objectIDs) as [|y rest] eqn:Hdrop.
  { apply (f_equal length) in Hdrop. rewrite length_drop in Hdrop. simpl in Hdrop. lia. }
  apply not_elem_of_cons in Hvalid' as [Hy _].
  rewrite foldl_app. simpl foldl.
  destruct (foldl_changed_distinct (take 10 objectIDs) (Session.new tmo now))
    as [-> Hcount]; [done|done|done|set_solver| |].
  { rewrite length_take. change (uiUpdateIDs (Session.new tmo now)) with (∅ : gset Z).
    rewrite size_empty. lia. }
  rewrite changed_at_cap; [|done|done|].
  - by apply foldl_changed_updateAll.
  - cbn [uiUpdateIDs Session.with_updates]. rewrite Hcount, length_take.
    change (uiUpdateIDs (Session.new tmo now)) with (∅ : gset Z).
    rewrite size_empty. lia.
Qed.

(** C8.  Fifteen distinct valid ids notified one at a time to a fresh
    session: the next [getUIUpdateIDs] returns ["all"], and the call after it
    returns the empty string and leaves the session as it is (so every later
    call does too). *)
Theorem fifteen_ids_signal_all_once (tmo : Z) (now : timespec) (objectIDs : list Z) :
  NoDup objectIDs → INVALID_OBJECT_ID ∉ objectIDs → length objectIDs = 15 →
  let s := foldl (λ s objectID, changed objectID s) (Session.new tmo now) objectIDs in
  let r1 := getUIUpdateIDs s in
  let r2 := getUIUpdateIDs r1.2 in
  r1.1 = "all" ∧ r2 = ("", r1.2).
Proof.
  intros Hnd Hvalid Hlen. cbv zeta.
  rewrite changed_past_cap by (done || lia).
  done.
Qed.

(** ** The invalid id *)

(** C10.  The single-id overload ignores [INVALID_OBJECT_ID] in every state;
    the batch overload treats it as any other id: below the cap, every id of
    the vector, [INVALID_OBJECT_ID] included, ends up pending. *)
Theorem invalid_id_only_filtered_by_single
    (s : Session) (objectIDs : list Z) (tmo : Z) (now : timespec) :
  changed INVALID_OBJECT_ID s = s ∧
  (updateAll s = false ∧ size (uiUpdateIDs s) + length objectIDs < 10 →
     changed_batch objectIDs s
       = Session.with_updates false (list_to_set objectIDs ∪ uiUpdateIDs s) s
     ∧ (INVALID_OBJECT_ID ∈ objectIDs →
          INVALID_OBJECT_ID ∈ uiUpdateIDs (changed_batch objectIDs s))) ∧
  uiUpdateIDs (changed_batch [INVALID_OBJECT_ID] (Session.new tmo now))
    = {[INVALID_OBJECT_ID]}.
Proof.
  split_and!.
  - unfold Session.containerChangedUI. by rewrite bool_decide_eq_true_2.
  - intros [Hall Hsize].
    assert (changed_batch objectIDs s
       = Session.with_updates false (list_to_set objectIDs ∪ uiUpdateIDs s) s) as ->.
    { unfold Session.containerChangedUI_batch, MAX_UI_UPDATE_IDS.
      rewrite Hall, foldl_insert_ids.
      rewrite bool_decide_eq_false_2 by lia. done. }
    split; [done|]. cbn [uiUpdateIDs Session.with_updates]. set_solver.
  - unfold Session.containerChangedUI_batch, MAX_UI_UPDATE_IDS.
    cbn [updateAll uiUpdateIDs Session.new Session.access length foldl].
    rewrite size_empty, bool_decide_eq_false_2 by lia.
    cbn [uiUpdateIDs Session.with_updates]. set_solver.
Qed.

End SessionFacts.

(** * Properties of [SessionManager] *)

(** A product that fits a [long] is what the code computes. *)
Lemma wrap_long_small (z : Z) : long_range z → wrap_long z = z.
Proof.
  unfold long_range, wrap_long. intros Hz.
  rewrite Z.mod_small by lia. lia.
Qed.

Lemma filter_ext_Forall {A} (P Q : A → Prop) `{!∀ x, Decision (P x)}
    `{!∀ x, Decision (Q x)} (l : list A) :
  Forall (λ x, P x ↔ Q x) l → filter P l = filter Q l.
Proof.
  induction 1 as [|x l Hx _ IH]; [done|].
  destruct (decide (P x)) as [HP|HP].
  - rewrite !filter_cons_True by tauto. by rewrite IH.
  - rewrite !filter_cons_False by tauto. done.
Qed.

Lemma wrap64_small (i : Z) : (0 ≤ i < 2 ^ 64)%Z → wrap64 i = i.
Proof. intros Hi. unfold wrap64. by apply Z.mod_small. Qed.

(** [i--] followed by [i++] gives [i] back, also at [i = 0]. *)
Lemma wrap64_dec_inc (i : Z) :
  (0 ≤ i < 2 ^ 64)%Z → wrap64 (wrap64 (i - 1) + 1) = i.
Proof.
  intros Hi. unfold wrap64.
  rewrite Zplus_mod_idemp_l.
  replace (i - 1 + 1)%Z with i by lia. by apply Z.mod_small.
Qed.

Lemma getSession_loop_None (sid : string) (l : list Session) :
  SessionManager.getSession_loop sid l = None ↔ sid ∉ (sessionID <$> l).
Proof.
  induction l as [|s l IH]; simpl.
  - split; [intros _; apply not_elem_of_nil | done].
  - rewrite not_elem_of_cons.
    destruct (String.eqb_spec (sessionID s) sid) as [Heq|Hne].
    + split; [done | intros [Hne _]; by destruct Hne].
    + rewrite IH. naive_solver.
Qed.

Lemma getSession_loop_Some (sid : string) (l : list Session) (s : Session) :
  SessionManager.getSession_loop sid l = Some s → s ∈ l ∧ sessionID s = sid.
Proof.
  induction l as [|s' l IH]; simpl; [done|].
  destruct (String.eqb_spec (sessionID s') sid) as [Heq|Hne].
  - intros [= ->]. split; [left | done].
  - intros H. destruct (IH H) as [Hin Hid]. split; [by right | done].
Qed.

Section ManagerFacts.

Variable INVALID_OBJECT_ID : Z.
Variable SESSION_TIMEOUT_CHECK_INTERVAL : Z.
Variable getDeltaMillis : timespec → timespec → Z.
Variable rng : Type.
Variable generate_random_id : rng → string * rng.

Local Abbreviation checkTimer := (SessionManager.checkTimer SESSION_TIMEOUT_CHECK_INTERVAL).
Local Abbreviation createSession_loop :=
  (SessionManager.createSession_loop rng generate_random_id).
Local Abbreviation createSession :=
  (SessionManager.createSession SESSION_TIMEOUT_CHECK_INTERVAL rng generate_random_id).
Local Abbreviation removeSession :=
  (SessionManager.removeSession SESSION_TIMEOUT_CHECK_INTERVAL).
Local Abbreviation timerNotify :=
  (SessionManager.timerNotify SESSION_TIMEOUT_CHECK_INTERVAL getDeltaMillis).
Local Abbreviation timerNotify_loop :=
  (SessionManager.timerNotify_loop SESSION_TIMEOUT_CHECK_INTERVAL getDeltaMillis).
Local Abbreviation timed_out := (SessionManager.timed_out getDeltaMillis).
Local Abbreviation generated_ids := (SessionManager.generated_ids rng generate_random_id).
Local Abbreviation step :=
  (SessionManager.step SESSION_TIMEOUT_CHECK_INTERVAL getDeltaMillis rng generate_random_id).
Local Abbreviation move :=
  (SessionManager.move SESSION_TIMEOUT_CHECK_INTERVAL getDeltaMillis rng generate_random_id).

(** ** The timer subscription *)

Lemma checkTimer_sessions (m : SessionManager) : sessions (checkTimer m) = sessions m.
Proof.
  unfold SessionManager.checkTimer.
  destruct (_ && _); [done|]. by destruct (_ && _).
Qed.

Lemma checkTimer_accounts (m : SessionManager) : accounts (checkTimer m) = accounts m.
Proof.
  unfold SessionManager.checkTimer.
  destruct (_ && _); [done|]. by destruct (_ && _).
Qed.

Lemma checkTimer_timerAdded (m : SessionManager) :
  timerAdded (checkTimer m) = bool_decide (sessions m ≠ []).
Proof.
  unfold SessionManager.checkTimer.
  destruct (sessions m) as [|s l] eqn:Hl, (timerAdded m) eqn:Hadded; simpl;
    rewrite ?bool_decide_eq_true_2, ?bool_decide_eq_false_2 by (lia || naive_solver);
    simpl; try done;
    rewrite ?bool_decide_eq_true_2, ?bool_decide_eq_false_2 by (lia || naive_solver);
    simpl; done.
Qed.

Lemma checkTimer_subscribes (m : SessionManager) :
  sessions m ≠ [] → timerAdded m = false →
  checkTimer m
  = SessionManager.with_timer true
      (timer m ++ [AddTimerSubscriber SESSION_TIMEOUT_CHECK_INTERVAL]) m.
Proof.
  intros Hl Hadded. unfold SessionManager.checkTimer. rewrite Hadded.
  destruct (sessions m); [done|].
  by rewrite bool_decide_eq_true_2 by (simpl; lia).
Qed.

Lemma checkTimer_unsubscribes (m : SessionManager) :
  sessions m = [] → timerAdded m = true →
  checkTimer m = SessionManager.with_timer false (timer m ++ [RemoveTimerSubscriber]) m.
Proof.
  intros Hl Hadded. unfold SessionManager.checkTimer. rewrite Hadded, Hl. done.
Qed.

Lemma checkTimer_in_sync (m : SessionManager) :
  SessionManager.timer_in_sync (checkTimer m).
Proof.
  unfold SessionManager.timer_in_sync.
  rewrite checkTimer_timerAdded, checkTimer_sessions.
  by rewrite bool_decide_eq_true.
Qed.

(** ** Creating a session *)

(** With [n] tries left before the counter passes 100, the loop throws
    exactly when the next [n] ids all collide.  It always comes back. *)
Lemma createSession_loop_throws (n fuel : nat) (count : Z) (r : rng) (m : SessionManager) :
  count = (101 - Z.of_nat n)%Z → n < fuel →
  (∃ res r', createSession_loop fuel count r m = Some (res, r')) ∧
  ((∃ what r', createSession_loop fuel count r m = Some (Throw what, r')) ↔
   Forall (SessionManager.collides m) (generated_ids n r)).
Proof.
  revert fuel count r. induction n as [|n IH]; intros fuel count r Hcount Hfuel;
    (destruct fuel as [|fuel]; [lia|]); simpl;
    destruct (generate_random_id r) as [sid r1].
  - rewrite bool_decide_eq_true_2 by lia. split; [eauto|].
    split; [constructor | eauto].
  - rewrite bool_decide_eq_false_2 by lia.
    destruct (SessionManager.getSession sid m) as [s|] eqn:Hget.
    + destruct (IH fuel (count + 1)%Z r1) as [Htotal Hthrow]; [lia|lia|].
      split; [done|]. rewrite Hthrow. rewrite Forall_cons.
      unfold SessionManager.collides at 2. rewrite Hget. naive_solver.
    + split; [eauto|]. split.
      * intros (what & r' & [=]).
      * rewrite Forall_cons. unfold SessionManager.collides at 1.
        rewrite Hget. intros [[? [=]] _].
Qed.

Lemma createSession_loop_fresh (fuel : nat) (count : Z) (r r' : rng)
    (m : SessionManager) (sid : string) :
  createSession_loop fuel count r m = Some (Ok sid, r') →
  SessionManager.getSession sid m = None.
Proof.
  revert count r. induction fuel as [|fuel IH]; intros count r; simpl; [done|].
  destruct (generate_random_id r) as [sid1 r1].
  case_bool_decide; [done|].
  destruct (SessionManager.getSession sid1 m) eqn:Hget; [apply IH|].
  by intros [= <- _].
Qed.

(** [createSession] always returns or throws. *)
Lemma createSession_total (tmo : Z) (now : timespec) (r : rng) (m : SessionManager) :
  ∃ res r', createSession tmo now r m = Some (res, r').
Proof.
  unfold SessionManager.createSession.
  destruct (createSession_loop_throws 101 102 0 r m) as [(res & r' & ->) _];
    [done|lia|].
  destruct res; eauto.
Qed.

(** [createSession] throws exactly when the first 101 generated ids all
    collide with live sessions. *)
Lemma createSession_throws_iff (tmo : Z) (now : timespec) (r : rng) (m : SessionManager) :
  (∃ what r', createSession tmo now r m = Some (Throw what, r')) ↔
  Forall (SessionManager.collides m) (generated_ids 101 r).
Proof.
  destruct (createSession_loop_throws 101 102 0 r m) as [(res & r1 & Hloop) Hthrow];
    [done|lia|].
  rewrite <- Hthrow. unfold SessionManager.createSession. rewrite Hloop.
  destruct res as [sid|what]; split; intros (w & r' & [=]); eauto.
Qed.

Lemma createSession_appends
    (tmo : Z) (now : timespec) (r r' : rng) (m m' : SessionManager) (s : Session) :
  createSession tmo now r m = Some (Ok (s, m'), r') →
  SessionManager.getSession (sessionID s) m = None ∧ sessions m' = sessions m ++ [s].
Proof.
  unfold SessionManager.createSession.
  destruct (createSession_loop 102 0 r m) as [[[sid|what] r1]|] eqn:Hloop; [|done..].
  intros [= <- <- <-]. apply createSession_loop_fresh in Hloop.
  by rewrite checkTimer_sessions.
Qed.

(** ** Removing a session *)

Lemma removeSession_loop_cases (sid : string) (i : nat) (rest : list Session)
    (m : SessionManager) :
  SessionManager.removeSession_loop SESSION_TIMEOUT_CHECK_INTERVAL sid i rest m = m ∨
  ∃ j, SessionManager.removeSession_loop SESSION_TIMEOUT_CHECK_INTERVAL sid i rest m
       = checkTimer (SessionManager.with_sessions (delete j (sessions m)) m).
Proof.
  revert i. induction rest as [|s rest IH]; intros i; simpl; [by left|].
  destruct (String.eqb _ _); [right; eauto | apply IH].
Qed.

(** ** The timeout sweep *)

Lemma timed_out_true (now : timespec) (s : Session) :
  timed_out now s = true
  ↔ (wrap_long (1000 * timeout s) < getDeltaMillis (last_access s) now)%Z.
Proof. unfold SessionManager.timed_out. apply bool_decide_eq_true. Qed.

(** From index [i] the loop keeps the sessions before [i] and, of the others,
    those that have not timed out; it ends within [length - i + 1] rounds. *)
Lemma timerNotify_loop_filter (now : timespec) (fuel i : nat) (m : SessionManager) :
  i ≤ length (sessions m) →
  (Z.of_nat (length (sessions m)) < 2 ^ 64)%Z →
  length (sessions m) - i < fuel →
  ∃ m', timerNotify_loop fuel now (Z.of_nat i) m = Some m' ∧
        sessions m' = take i (sessions m)
                      ++ filter (λ s, ¬ (wrap_long (1000 * timeout s)
                                         < getDeltaMillis (last_access s) now)%Z)
                                (drop i (sessions m)) ∧
        accounts m' = accounts m.
Proof.
  revert i m. induction fuel as [|fuel IH]; intros i m Hi Hsize Hfuel; [lia|].
  simpl. case_bool_decide as Hlt.
  - rewrite Nat2Z.id.
    destruct (lookup_lt_is_Some_2 (sessions m) i) as [session Hsession]; [lia|].
    rewrite Hsession.
    rewrite (drop_S _ _ _ Hsession).
    destruct (timed_out now session) eqn:Hout.
    + apply timed_out_true in Hout.
      rewrite wrap64_dec_inc by lia.
      set (m1 := checkTimer (SessionManager.with_sessions (delete i (sessions m)) m)).
      assert (sessions m1 = take i (sessions m) ++ drop (S i) (sessions m)) as Hm1.
      { unfold m1. rewrite checkTimer_sessions. apply delete_take_drop. }
      assert (length (sessions m1) = length (sessions m) - 1) as Hlen.
      { rewrite Hm1, length_app, length_take, length_drop. lia. }
      destruct (IH i m1) as (m' & Hloop & Hsessions & Haccounts); [lia|lia|lia|].
      exists m'. split; [done|]. split.
      * rewrite Hsessions, Hm1.
        rewrite take_app_length' by (rewrite length_take; lia).
        rewrite drop_app_length' by (rewrite length_take; lia).
        by rewrite filter_cons_False by (intros Hkeep; by apply Hkeep).
      * rewrite Haccounts. unfold m1. by rewrite checkTimer_accounts.
    + assert (¬ (wrap_long (1000 * timeout session)
                 < getDeltaMillis (last_access session) now)%Z) as Hkeep.
      { rewrite <- timed_out_true. by rewrite Hout. }
      rewrite wrap64_small by lia.
      replace (Z.of_nat i + 1)%Z with (Z.of_nat (S i)) by lia.
      destruct (IH (S i) m) as (m' & Hloop & Hsessions & Haccounts); [lia|lia|lia|].
      exists m'. split; [done|]. split; [|done].
      rewrite Hsessions, (take_S_r _ _ _ Hsession), filter_cons_True by done.
      by rewrite <- app_assoc.
  - exists m. split; [done|].
    rewrite take_ge, drop_ge by lia. by rewrite app_nil_r.
Qed.

(** Whatever the sweep returns is the state it started from or a state in
    which the timer flag has just been brought in line. *)
Lemma timerNotify_loop_in_sync (now : timespec) (fuel : nat) (i : Z)
    (m m' : SessionManager) :
  timerNotify_loop fuel now i m = Some m' →
  m' = m ∨ SessionManager.timer_in_sync m'.
Proof.
  revert i m. induction fuel as [|fuel IH]; intros i m; simpl; [done|].
  case_bool_decide; [|intros [= <-]; by left].
  destruct (sessions m !! Z.to_nat i) as [session|]; [|done].
  destruct (timed_out now session).
  - intros Hloop. right. apply IH in Hloop as [->|Hsync]; [|done].
    apply checkTimer_in_sync.
  - apply IH.
Qed.

Lemma timerNotify_loop_sublist (now : timespec) (fuel : nat) (i : Z)
    (m m' : SessionManager) :
  timerNotify_loop fuel now i m = Some m' → sessions m' `sublist_of` sessions m.
Proof.
  revert i m. induction fuel as [|fuel IH]; intros i m; simpl; [done|].
  case_bool_decide; [|by intros [= <-]].
  destruct (sessions m !! Z.to_nat i) as [session|]; [|done].
  destruct (timed_out now session); [|apply IH].
  intros Hloop. apply IH in Hloop. rewrite checkTimer_sessions in Hloop.
  etrans; [exact Hloop|]. apply sublist_delete.
Qed.

(** ** The states the manager can reach *)

(** A step appends a session with an id that was free, or leaves a
    subsequence of the registry. *)
Lemma step_sessions (m m' : SessionManager) :
  step m m' →
  (∃ s, sessions m' = sessions m ++ [s] ∧ (sessionID s ∉ sessionID <$> sessions m))
  ∨ sessions m' `sublist_of` sessions m.
Proof.
  intros Hstep.
  destruct Hstep as [tmo now r s m' r' Hcreate|tmo now r what r' Hcreate|sid|now m' Hsweep].
  - left. exists s. apply createSession_appends in Hcreate as [Hfree ->].
    split; [done|]. by apply getSession_loop_None.
  - by right.
  - right. unfold SessionManager.removeSession.
    destruct (removeSession_loop_cases sid 0 (sessions m) m) as [->|[j ->]]; [done|].
    rewrite checkTimer_sessions. apply sublist_delete.
  - right. by eapply timerNotify_loop_sublist.
Qed.

Lemma step_distinct_ids (m m' : SessionManager) :
  step m m' →
  NoDup (sessionID <$> sessions m) → NoDup (sessionID <$> sessions m').
Proof.
  intros Hstep Hnd. destruct (step_sessions m m' Hstep) as [(s & -> & Hfree)|Hsub].
  - rewrite fmap_app. apply NoDup_app. split_and!; [done| |apply NoDup_singleton].
    intros x Hx Hx'. apply list_elem_of_singleton in Hx'. by subst.
  - eapply sublist_NoDup; [exact Hnd|]. by apply fmap_sublist.
Qed.

Lemma step_in_sync (m m' : SessionManager) :
  step m m' →
  SessionManager.timer_in_sync m ∨ sessions m' ≠ sessions m →
  SessionManager.timer_in_sync m'.
Proof.
  intros Hstep.
  destruct Hstep as [tmo now r s m' r' Hcreate|tmo now r what r' Hcreate|sid|now m' Hsweep].
  - intros _. unfold SessionManager.createSession in Hcreate.
    destruct (createSession_loop 102 0 r m) as [[[sid|what] r1]|]; [|done..].
    injection Hcreate as _ <- _. apply checkTimer_in_sync.
  - intros [Hsync|Hchanged]; done.
  - unfold SessionManager.removeSession.
    destruct (removeSession_loop_cases sid 0 (sessions m) m) as [->|[j ->]].
    + intros [Hsync|Hchanged]; done.
    + intros _. apply checkTimer_in_sync.
  - unfold SessionManager.timerNotify in Hsweep.
    apply timerNotify_loop_in_sync in Hsweep as [->|Hsync]; [|done].
    intros [Hsync|Hchanged]; done.
Qed.

Lemma touch_keeps (m m' : SessionManager) :
  SessionManager.touch m m' →
  sessionID <$> sessions m' = sessionID <$> sessions m ∧
  timerAdded m' = timerAdded m ∧
  length (sessions m') = length (sessions m).
Proof.
  intros Htouch. destruct Htouch as [i s s' Hs Hid].
  cbn [sessions timerAdded SessionManager.with_sessions].
  split_and!; [|done|apply length_insert].
  rewrite list_fmap_insert, Hid. apply list_insert_id.
  by rewrite list_lookup_fmap, Hs.
Qed.

(** From the constructor on, the flag is in line and the ids are pairwise
    distinct. *)
Lemma reachable_invariants (accts : gmap string string) (m : SessionManager) :
  rtc move (SessionManager.new accts) m →
  SessionManager.timer_in_sync m ∧ NoDup (sessionID <$> sessions m).
Proof.
  revert m. apply rtc_ind_r.
  - split; [done | apply NoDup_nil_2].
  - intros m0 m1 _ [Hstep|Htouch] [Hsync Hnd].
    + split.
      * eapply step_in_sync; [exact Hstep | by left].
      * by eapply step_distinct_ids.
    + destruct (touch_keeps m0 m1 Htouch) as (Hids & Hflag & Hlen).
      split; [|by rewrite Hids].
      unfold SessionManager.timer_in_sync in *. rewrite Hflag, Hsync.
      destruct (sessions m0), (sessions m1); naive_solver.
Qed.

(** ** The claims on the registry *)

(** C5.  After a successful [createSession] the id of the new session is the
    id of no session that was in the registry, and the registry is the old
    one with the new session appended; so ids that were pairwise distinct
    still are, and they are after every successful [createSession] in a
    state reached from the constructor. *)
Theorem createSession_distinct_ids
    (tmo : Z) (now : timespec) (r r' : rng) (m m' : SessionManager) (s : Session) :
  createSession tmo now r m = Some (Ok (s, m'), r') →
  (sessionID s ∉ sessionID <$> sessions m) ∧
  sessions m' = sessions m ++ [s] ∧
  (NoDup (sessionID <$> sessions m) → NoDup (sessionID <$> sessions m')) ∧
  (∀ accts, rtc move (SessionManager.new accts) m →
     NoDup (sessionID <$> sessions m')).
Proof.
  intros Hcreate.
  destruct (createSession_appends _ _ _ _ _ _ _ Hcreate) as [Hfree Hsessions].
  apply getSession_loop_None in Hfree.
  assert (NoDup (sessionID <$> sessions m) → NoDup (sessionID <$> sessions m'))
    as Hkeep.
  { intros Hnd. rewrite Hsessions, fmap_app.
    apply NoDup_app. split_and!; [done| |apply NoDup_singleton].
    intros x Hx Hx'. apply list_elem_of_singleton in Hx'. by subst. }
  split_and!; [done|done|done|].
  intros accts Hreach. apply Hkeep. by eapply reachable_invariants.
Qed.

(** Where the products fit a [long], the test of the sweep is the comparison
    of the integers. *)
Lemma filter_timed_out_in_range (now : timespec) (l : list Session) :
  Forall (λ s, long_range (1000 * timeout s)) l →
  filter (λ s, ¬ (wrap_long (1000 * timeout s)
                  < getDeltaMillis (last_access s) now)%Z) l
  = filter (λ s, ¬ (1000 * timeout s < getDeltaMillis (last_access s) now)%Z) l.
Proof.
  intros Hrange. apply filter_ext_Forall.
  eapply Forall_impl; [exact Hrange|].
  intros s Hs. simpl. by rewrite wrap_long_small.
Qed.

(** C7 (as amended).  One sweep of a registry whose size fits a [size_t] and
    in which 1000 times the timeout of each session fits a [long] returns,
    and what it leaves is the registry filtered, in its order, by "has not
    timed out": a session is removed exactly when the milliseconds since its
    last access exceed 1000 times its timeout, and a session accessed more
    recently than its timeout stays. *)
Theorem timerNotify_sweeps_expired (now : timespec) (m : SessionManager) :
  (Z.of_nat (length (sessions m)) < 2 ^ 64)%Z →
  Forall (λ s, long_range (1000 * timeout s)) (sessions m) →
  ∃ m', timerNotify now m = Some m' ∧
    sessions m' = filter (λ s, ¬ (1000 * timeout s
                                  < getDeltaMillis (last_access s) now)%Z)
                         (sessions m) ∧
    (∀ s, s ∈ sessions m →
       (s ∉ sessions m' ↔
        (1000 * timeout s < getDeltaMillis (last_access s) now)%Z)) ∧
    (∀ s, s ∈ sessions m →
       (getDeltaMillis (last_access s) now < 1000 * timeout s)%Z →
       s ∈ sessions m').
Proof.
  intros Hsize Hrange.
  destruct (timerNotify_loop_filter now (S (length (sessions m))) 0 m)
    as (m' & Hloop & Hsessions & _); [lia|done|lia|].
  rewrite take_0, drop_0 in Hsessions. simpl in Hsessions.
  rewrite filter_timed_out_in_range in Hsessions by done.
  exists m'. split; [done|]. split; [done|]. rewrite Hsessions. split.
  - intros s Hs. rewrite list_elem_of_filter. split.
    + intros Hout. destruct (decide (1000 * timeout s
                                      < getDeltaMillis (last_access s) now)%Z);
        [done|]. destruct Hout. by split.
    + intros Hout [Hkeep _]. by apply Hkeep.
  - intros s Hs Hrecent. apply list_elem_of_filter. split; [lia|done].
Qed.

(** On an empty registry no id can collide: [createSession] succeeds at its
    first try. *)
Lemma createSession_on_empty (tmo : Z) (now : timespec) (r : rng) (m : SessionManager) :
  sessions m = [] →
  ∃ s r', createSession tmo now r m
          = Some (Ok (s, checkTimer (SessionManager.with_sessions [s] m)), r').
Proof.
  intros Hempty. unfold SessionManager.createSession.
  cbn [SessionManager.createSession_loop].
  destruct (generate_random_id r) as [sid r1].
  rewrite bool_decide_eq_false_2 by lia.
  unfold SessionManager.getSession. rewrite Hempty.
  cbn [SessionManager.getSession_loop app]. eauto.
Qed.

(** C6.  [createSession] and [timerNotify] return, and every
    [createSession], [removeSession] and [timerNotify] that changes the
    collection of sessions, and every one that starts from a state in which
    the flag is in line (as is every state reached from the constructor),
    ends in a state where [timerAdded] is true exactly when the collection is
    non-empty.  In particular, removing the only session of a subscribed
    manager clears the flag and tells the timer to drop the subscriber, and
    the next [createSession], which then succeeds, sets the flag and
    subscribes again. *)
Theorem timerAdded_tracks_sessions (m m' : SessionManager) :
  step m m' →
  (SessionManager.timer_in_sync m ∨ sessions m' ≠ sessions m →
   SessionManager.timer_in_sync m') ∧
  (∀ accts, rtc move (SessionManager.new accts) m →
     SessionManager.timer_in_sync m') ∧
  (∀ s, sessions m = [s] → timerAdded m = true →
     let m1 := removeSession (sessionID s) m in
     sessions m1 = [] ∧ timerAdded m1 = false ∧
     timer m1 = timer m ++ [RemoveTimerSubscriber] ∧
     ∀ tmo now r, ∃ s2 m2 r',
       createSession tmo now r m1 = Some (Ok (s2, m2), r') ∧
       sessions m2 = [s2] ∧ timerAdded m2 = true ∧
       timer m2 = timer m1 ++ [AddTimerSubscriber SESSION_TIMEOUT_CHECK_INTERVAL]) ∧
  (∀ tmo now r,
     (∃ s2 m2 r', createSession tmo now r m = Some (Ok (s2, m2), r') ∧
                  sessions m2 = sessions m ++ [s2] ∧ timerAdded m2 = true)
     ∨ (∃ what r', createSession tmo now r m = Some (Throw what, r'))) ∧
  ((Z.of_nat (length (sessions m)) < 2 ^ 64)%Z →
   ∀ now, ∃ m2, timerNotify now m = Some m2 ∧
                (SessionManager.timer_in_sync m ∨ sessions m2 ≠ sessions m →
                 SessionManager.timer_in_sync m2)).
Proof.
  intros Hstep. split_and!.
  - by apply step_in_sync.
  - intros accts Hreach. apply (step_in_sync m m' Hstep). left.
    by eapply reachable_invariants.
  - intros s Hs Hadded. unfold SessionManager.removeSession.
    rewrite Hs. cbn [SessionManager.removeSession_loop].
    rewrite String.eqb_refl, Hs. cbn [delete].
    rewrite checkTimer_unsubscribes by done.
    split_and!; try done.
    intros tmo now r.
    destruct (createSession_on_empty tmo now r
                (SessionManager.with_timer false (timer m ++ [RemoveTimerSubscriber])
                   (SessionManager.with_sessions [] m)) eq_refl) as (s2 & r' & Hcreate).
    eexists s2, _, r'. split; [exact Hcreate|].
    rewrite checkTimer_subscribes by done. done.
  - intros tmo now r.
    destruct (createSession_total tmo now r m) as ([[s2 m2]|what] & r' & Hcreate).
    + left. exists s2, m2, r'. split; [done|].
      unfold SessionManager.createSession in Hcreate.
      destruct (createSession_loop 102 0 r m) as [[[sid|what] r1]|]; [|done..].
      injection Hcreate as <- <- _.
      rewrite checkTimer_sessions, checkTimer_timerAdded.
      cbn [sessions SessionManager.with_sessions]. split; [done|].
      apply bool_decide_eq_true_2. by destruct (sessions m).
    + right. eauto.
  - intros Hsize now.
    destruct (timerNotify_loop_filter now (S (length (sessions m))) 0 m)
      as (m2 & Hloop & _); [lia|done|lia|].
    exists m2. split; [done|].
    apply timerNotify_loop_in_sync in Hloop as [->|Hsync]; [|done].
    intros [Hsync|Hchanged]; done.
Qed.

(** ** Fanning a change out to the sessions *)

Lemma containerChangedUI_loop_map (notify : Session → Session) (n i : nat)
    (l : list Session) :
  n + i = length l →
  SessionManager.containerChangedUI_loop notify n i l
  = take i l ++ ((λ s, if loggedIn s then notify s else s) <$> drop i l).
Proof.
  revert i l. induction n as [|n IH]; intros i l Hlen; simpl.
  - rewrite drop_ge by lia. rewrite take_ge by lia. by rewrite app_nil_r.
  - destruct (lookup_lt_is_Some_2 l i) as [session Hsession]; [lia|].
    rewrite Hsession.
    set (f := λ s, if loggedIn s then notify s else s).
    assert ((if loggedIn session then <[i := notify session]> l else l)
            = <[i := f session]> l) as ->.
    { unfold f. destruct (loggedIn session); [done|]. by rewrite list_insert_id. }
    rewrite IH by (rewrite length_insert; lia).
    rewrite (take_S_r _ _ (f session))
      by (apply list_lookup_insert_eq; apply lookup_lt_Some in Hsession; lia).
    rewrite take_insert_ge by lia.
    rewrite drop_insert_lt by lia.
    rewrite (drop_S _ _ _ Hsession), fmap_cons, <- app_assoc. done.
Qed.

(** C9.  Both overloads of [SessionManager::containerChangedUI] call the
    [Session] method of the same name on each session that is logged in and
    leave every other session, and every other member of the manager, as it
    was; on an empty registry they change nothing. *)
Theorem containerChangedUI_fans_out
    (objectID : Z) (objectIDs : list Z) (m : SessionManager) :
  let m1 := SessionManager.containerChangedUI INVALID_OBJECT_ID objectID m in
  let m2 := SessionManager.containerChangedUI_batch objectIDs m in
  sessions m1
    = (λ s, if loggedIn s
            then Session.containerChangedUI INVALID_OBJECT_ID objectID s
            else s) <$> sessions m ∧
  sessions m2
    = (λ s, if loggedIn s then Session.containerChangedUI_batch objectIDs s else s)
        <$> sessions m ∧
  (accounts m1, timerAdded m1, timer m1) = (accounts m, timerAdded m, timer m) ∧
  (accounts m2, timerAdded m2, timer m2) = (accounts m, timerAdded m, timer m) ∧
  (sessions m = [] → m1 = m ∧ m2 = m).
Proof.
  cbv zeta.
  unfold SessionManager.containerChangedUI, SessionManager.containerChangedUI_batch.
  destruct (sessions m) as [|s l] eqn:Hl.
  - simpl. done.
  - rewrite bool_decide_eq_false_2 by (simpl; lia).
    cbn [sessions accounts timerAdded timer SessionManager.with_sessions].
    rewrite !containerChangedUI_loop_map by lia.
    rewrite take_0, drop_0. done.
Qed.

End ManagerFacts.

(** * The statements on concrete states *)

Lemma containerChangedUI_cap_witness :
  updateAll Sample.nine_pending = false ∧
  10%Z ≠ Sample.invalid_id ∧
  (Session.containerChangedUI Sample.invalid_id 10 Sample.nine_pending
   = if bool_decide (MAX_UI_UPDATE_IDS ≤ size (uiUpdateIDs Sample.nine_pending))
     then Session.with_updates true ∅ Sample.nine_pending
     else Session.with_updates false ({[10%Z]} ∪ uiUpdateIDs Sample.nine_pending)
            Sample.nine_pending) ∧
  (Session.containerChangedUI_batch [5; 5]%Z Sample.nine_pending
   = if bool_decide (MAX_UI_UPDATE_IDS
                     ≤ size (uiUpdateIDs Sample.nine_pending) + length [5; 5]%Z)
     then Session.with_updates true ∅ Sample.nine_pending
     else Session.with_updates false
            (list_to_set [5; 5]%Z ∪ uiUpdateIDs Sample.nine_pending)
            Sample.nine_pending) ∧
  (updateAll (Session.containerChangedUI Sample.invalid_id 10 Sample.nine_pending) = true
   ↔ 10 ≤ size (uiUpdateIDs Sample.nine_pending)) ∧
  (updateAll (Session.containerChangedUI_batch [5; 5]%Z Sample.nine_pending) = true
   ↔ 10 ≤ size (uiUpdateIDs Sample.nine_pending) + length [5; 5]%Z).
Proof.
  assert (10%Z ≠ Sample.invalid_id) as Hvalid by (unfold Sample.invalid_id; lia).
  split; [reflexivity|]. split; [exact Hvalid|].
  exact (containerChangedUI_cap Sample.invalid_id Sample.nine_pending 10 [5; 5]%Z
           eq_refl Hvalid).
Defined.

(** C1, as the claim has it, fails on the code.  With nine ids pending, a
    tenth distinct id makes the set reach ten, yet the single-id overload
    inserts it and does not switch to [updateAll]; on a fresh session a
    vector holding ten times the id 5 would make the set hold one id, yet the
    batch overload switches to [updateAll]; and on a fresh session the
    single-id overload does not insert [INVALID_OBJECT_ID]. *)
Lemma containerChangedUI_cap_counterexample :
  (updateAll Sample.nine_pending = false ∧
   size ({[10%Z]} ∪ uiUpdateIDs Sample.nine_pending) = 10 ∧
   updateAll (Session.containerChangedUI Sample.invalid_id 10 Sample.nine_pending)
     = false ∧
   size (uiUpdateIDs
           (Session.containerChangedUI Sample.invalid_id 10 Sample.nine_pending))
     = 10) ∧
  (updateAll (Session.new 60 (Sample.at_second 0)) = false ∧
   size (list_to_set (replicate 10 5%Z)
         ∪ uiUpdateIDs (Session.new 60 (Sample.at_second 0))) = 1 ∧
   updateAll (Session.containerChangedUI_batch (replicate 10 5%Z)
                (Session.new 60 (Sample.at_second 0))) = true ∧
   uiUpdateIDs (Session.containerChangedUI_batch (replicate 10 5%Z)
                  (Session.new 60 (Sample.at_second 0))) = ∅) ∧
  (size ({[Sample.invalid_id]} ∪ uiUpdateIDs (Session.new 60 (Sample.at_second 0)))
     = 1 ∧
   uiUpdateIDs (Session.containerChangedUI Sample.invalid_id Sample.invalid_id
                  (Session.new 60 (Sample.at_second 0))) = ∅).
Proof. by vm_compute. Qed.

Lemma getUIUpdateIDs_drain_on_read_witness :
  (∀ X, Sample.order X ≡ₚ elements X) ∧
  (updateAll Sample.two_pending = false ∧ uiUpdateIDs Sample.two_pending ≠ ∅) ∧
  let r := Session.getUIUpdateIDs Sample.order Sample.two_pending in
  (∃ l, l ≡ₚ elements (uiUpdateIDs Sample.two_pending)
        ∧ r.1 = String.concat "," (pretty <$> l)) ∧
  r.1 ≠ "" ∧
  r.2 = Session.with_updates false ∅ Sample.two_pending ∧
  Session.getUIUpdateIDs Sample.order r.2 = ("", r.2).
Proof.
  assert (∀ X, Sample.order X ≡ₚ elements X) as Hperm by reflexivity.
  assert (updateAll Sample.two_pending = false ∧ uiUpdateIDs Sample.two_pending ≠ ∅)
    as Hpending by (split; [reflexivity | by vm_compute]).
  split; [exact Hperm|]. split; [exact Hpending|].
  exact (proj2 (proj2 (getUIUpdateIDs_drain_on_read Sample.order Hperm Sample.two_pending))
           Hpending).
Defined.

Lemma exclusive_modes_invariant_witness :
  let s := Session.run_ops Sample.invalid_id Sample.order
             (Session.ContainerChangedBatch [1; 2; 3]%Z
              :: Session.ContainerChangedBatch [4; 5; 6; 7; 8; 9; 10]%Z
              :: Session.ContainerChanged 11 :: [])
             (Session.new 60 (Sample.at_second 0)) in
  updateAll s = true ∧ uiUpdateIDs s = ∅.
Proof.
  cbv zeta. split; [reflexivity|].
  apply (exclusive_modes_invariant Sample.invalid_id Sample.order 60 (Sample.at_second 0)).
  reflexivity.
Defined.

Lemma fifteen_ids_signal_all_once_witness :
  NoDup (Z.of_nat <$> seq 1 15) ∧
  (Sample.invalid_id ∉ Z.of_nat <$> seq 1 15) ∧
  length (Z.of_nat <$> seq 1 15) = 15 ∧
  let s := foldl (λ s objectID, Session.containerChangedUI Sample.invalid_id objectID s)
             (Session.new 60 (Sample.at_second 0)) (Z.of_nat <$> seq 1 15) in
  let r1 := Session.getUIUpdateIDs Sample.order s in
  let r2 := Session.getUIUpdateIDs Sample.order r1.2 in
  r1.1 = "all" ∧ r2 = ("", r1.2).
Proof.
  assert (NoDup (Z.of_nat <$> seq 1 15)) as Hnd
    by (apply (bool_decide_unpack _); by vm_compute).
  assert (Sample.invalid_id ∉ (Z.of_nat <$> seq 1 15)) as Hvalid
    by (apply (bool_decide_unpack _); by vm_compute).
  split; [exact Hnd|]. split; [exact Hvalid|]. split; [reflexivity|].
  exact (fifteen_ids_signal_all_once Sample.invalid_id Sample.order 60
           (Sample.at_second 0) (Z.of_nat <$> seq 1 15) Hnd Hvalid eq_refl).
Defined.

Lemma invalid_id_only_filtered_by_single_witness :
  (updateAll Sample.two_pending = false
   ∧ size (uiUpdateIDs Sample.two_pending) + length [Sample.invalid_id; 8%Z] < 10) ∧
  Sample.invalid_id ∈ [Sample.invalid_id; 8%Z] ∧
  Session.containerChangedUI Sample.invalid_id Sample.invalid_id Sample.two_pending
    = Sample.two_pending ∧
  Session.containerChangedUI_batch [Sample.invalid_id; 8%Z] Sample.two_pending
    = Session.with_updates false
        (list_to_set [Sample.invalid_id; 8%Z] ∪ uiUpdateIDs Sample.two_pending)
        Sample.two_pending ∧
  Sample.invalid_id
    ∈ uiUpdateIDs (Session.containerChangedUI_batch [Sample.invalid_id; 8%Z]
                     Sample.two_pending).
Proof.
  assert (updateAll Sample.two_pending = false
          ∧ size (uiUpdateIDs Sample.two_pending) + length [Sample.invalid_id; 8%Z] < 10)
    as Hbelow by (split; [reflexivity | vm_compute; lia]).
  assert (Sample.invalid_id ∈ [Sample.invalid_id; 8%Z]) as Hin by left.
  destruct (invalid_id_only_filtered_by_single Sample.invalid_id Sample.two_pending
              [Sample.invalid_id; 8%Z] 60 (Sample.at_second 0))
    as (Hsingle & Hbatch & _).
  destruct (Hbatch Hbelow) as [Heq Hpending].
  split; [exact Hbelow|]. split; [exact Hin|]. split; [exact Hsingle|].
  split; [exact Heq | exact (Hpending Hin)].
Defined.

(** C4 (the code on the failing input).  With a live session "a" and a
    generator that hands out "a" a hundred times and "b" from then on, a
    hundred consecutive ids collide and [createSession] still succeeds, with
    the id "b" of the 101st try; it is with 101 collisions that it throws,
    after asking for a 102nd id. *)
Theorem createSession_100_collisions_accepted :
  let m := Sample.manager [Sample.session "a" true 0 60 []] true in
  let new_session := Session.setID "b" (Session.new 60 (Sample.at_second 1)) in
  SessionManager.generated_ids nat (Sample.ids_then 100 "a" "b") 100 0
    = replicate 100 "a" ∧
  SessionManager.getSession "a" m = Some (Sample.session "a" true 0 60 []) ∧
  SessionManager.createSession Sample.interval nat (Sample.ids_then 100 "a" "b")
      60 (Sample.at_second 1) 0 m
    = Some (Ok (new_session,
                Sample.manager [Sample.session "a" true 0 60 []; new_session] true),
            101) ∧
  SessionManager.createSession Sample.interval nat (Sample.ids_then 101 "a" "b")
      60 (Sample.at_second 1) 0 m
    = Some (Throw "There seems to be something wrong with the random numbers. I tried to get a unique id 100 times and failed. last sessionID: b", 102).
Proof. cbv zeta. split_and!; by vm_compute. Qed.

Lemma createSession_distinct_ids_witness :
  let m := Sample.manager [Sample.session "a" true 0 60 []] true in
  let s := Session.setID "b" (Session.new 60 (Sample.at_second 1)) in
  let m' := Sample.manager [Sample.session "a" true 0 60 []; s] true in
  SessionManager.createSession Sample.interval nat (Sample.ids_then 3 "a" "b")
      60 (Sample.at_second 1) 0 m = Some (Ok (s, m'), 4) ∧
  (sessionID s ∉ sessionID <$> sessions m) ∧
  sessions m' = sessions m ++ [s] ∧
  (NoDup (sessionID <$> sessions m) → NoDup (sessionID <$> sessions m')) ∧
  (∀ accts,
     rtc (SessionManager.move Sample.interval Sample.delta_millis nat
            (Sample.ids_then 3 "a" "b")) (SessionManager.new accts) m →
     NoDup (sessionID <$> sessions m')).
Proof.
  cbv zeta.
  assert (SessionManager.createSession Sample.interval nat (Sample.ids_then 3 "a" "b")
            60 (Sample.at_second 1) 0
            (Sample.manager [Sample.session "a" true 0 60 []] true)
          = Some (Ok (Session.setID "b" (Session.new 60 (Sample.at_second 1)),
                      Sample.manager
                        [Sample.session "a" true 0 60 [];
                         Session.setID "b" (Session.new 60 (Sample.at_second 1))] true),
                  4)) as Hcreate by (by vm_compute).
  split; [exact Hcreate|].
  exact (createSession_distinct_ids Sample.interval Sample.delta_millis nat
           (Sample.ids_then 3 "a" "b") 60 (Sample.at_second 1) 0 4 _ _ _ Hcreate).
Defined.

Lemma timerNotify_sweeps_expired_witness :
  (Z.of_nat (length (sessions Sample.three_sessions)) < 2 ^ 64)%Z ∧
  Forall (λ s, long_range (1000 * timeout s)) (sessions Sample.three_sessions) ∧
  ∃ m', SessionManager.timerNotify Sample.interval Sample.delta_millis
          (Sample.at_second 150) Sample.three_sessions = Some m' ∧
    sessions m'
      = filter (λ s, ¬ (1000 * timeout s
                        < Sample.delta_millis (last_access s) (Sample.at_second 150))%Z)
               (sessions Sample.three_sessions) ∧
    (∀ s, s ∈ sessions Sample.three_sessions →
       (s ∉ sessions m' ↔
        (1000 * timeout s
         < Sample.delta_millis (last_access s) (Sample.at_second 150))%Z)) ∧
    (∀ s, s ∈ sessions Sample.three_sessions →
       (Sample.delta_millis (last_access s) (Sample.at_second 150)
        < 1000 * timeout s)%Z →
       s ∈ sessions m').
Proof.
  assert (Z.of_nat (length (sessions Sample.three_sessions)) < 2 ^ 64)%Z as Hsize
    by (vm_compute; reflexivity).
  assert (Forall (λ s, long_range (1000 * timeout s)) (sessions Sample.three_sessions))
    as Hrange by (repeat constructor; unfold long_range; simpl; lia).
  split; [exact Hsize|]. split; [exact Hrange|].
  exact (timerNotify_sweeps_expired Sample.interval Sample.delta_millis
           (Sample.at_second 150) Sample.three_sessions Hsize Hrange).
Defined.

(** C7, as the claim has it, fails on the code.  A session whose timeout is
    the largest [long] was accessed one second ago: the milliseconds since
    (1000) do not exceed 1000 times its timeout, yet the [long] product wraps
    around to -1000 and the sweep removes the session. *)
Lemma timerNotify_sweeps_expired_counterexample :
  let s := Sample.session "a" true 0 (2 ^ 63 - 1) [] in
  let m := Sample.manager [s] true in
  let now := Sample.at_second 1 in
  s ∈ sessions m ∧
  long_range (timeout s) ∧
  Sample.delta_millis (last_access s) now = 1000%Z ∧
  ¬ (1000 * timeout s < Sample.delta_millis (last_access s) now)%Z ∧
  wrap_long (1000 * timeout s) = (-1000)%Z ∧
  ∃ m', SessionManager.timerNotify Sample.interval Sample.delta_millis now m = Some m'
        ∧ sessions m' = [].
Proof.
  cbv zeta. split_and!.
  - left.
  - unfold long_range. split; by vm_compute.
  - reflexivity.
  - by vm_compute.
  - reflexivity.
  - eexists. split; [by vm_compute | reflexivity].
Qed.

Lemma timerAdded_tracks_sessions_witness :
  let m := Sample2.after_create in
  let m' := SessionManager.removeSession Sample.interval "b" m in
  let again := Session.setID "b" (Session.new 60 (Sample.at_second 2)) in
  SessionManager.step Sample.interval Sample.delta_millis nat
    (Sample.ids_then 0 "a" "b") m m' ∧
  rtc (SessionManager.move Sample.interval Sample.delta_millis nat
         (Sample.ids_then 0 "a" "b")) (SessionManager.new Sample2.accts) m ∧
  (SessionManager.timer_in_sync m ∨ sessions m' ≠ sessions m) ∧
  SessionManager.timer_in_sync m' ∧
  sessions m = [Sample2.first_created] ∧
  timerAdded m = true ∧
  sessions m' = [] ∧ timerAdded m' = false ∧
  timer m' = timer m ++ [RemoveTimerSubscriber] ∧
  SessionManager.createSession Sample.interval nat (Sample.ids_then 0 "a" "b")
      60 (Sample.at_second 2) 0 m'
    = Some (Ok (again,
                {| sessions := [again]; accounts := Sample2.accts; timerAdded := true;
                   timer := [AddTimerSubscriber Sample.interval; RemoveTimerSubscriber;
                             AddTimerSubscriber Sample.interval] |}), 1) ∧
  (∃ s2 m2 r',
     SessionManager.createSession Sample.interval nat (Sample.ids_then 0 "a" "b")
       60 (Sample.at_second 2) 0 m' = Some (Ok (s2, m2), r') ∧
     sessions m2 = [s2] ∧ timerAdded m2 = true ∧
     timer m2 = timer m' ++ [AddTimerSubscriber Sample.interval]) ∧
  (Z.of_nat (length (sessions m)) < 2 ^ 64)%Z ∧
  (∃ m2, SessionManager.timerNotify Sample.interval Sample.delta_millis
           (Sample.at_second 100) m = Some m2 ∧
         (SessionManager.timer_in_sync m ∨ sessions m2 ≠ sessions m →
          SessionManager.timer_in_sync m2)).
Proof.
  cbv zeta.
  set (m := Sample2.after_create).
  assert (SessionManager.step Sample.interval Sample.delta_millis nat
            (Sample.ids_then 0 "a" "b") m
            (SessionManager.removeSession Sample.interval "b" m)) as Hstep
    by apply SessionManager.step_remove.
  assert (rtc (SessionManager.move Sample.interval Sample.delta_millis nat
                 (Sample.ids_then 0 "a" "b")) (SessionManager.new Sample2.accts) m)
    as Hreach.
  { apply rtc_once. left.
    apply (SessionManager.step_create _ _ _ _ _ 60 (Sample.at_second 1) 0
             Sample2.first_created Sample2.after_create 1).
    by vm_compute. }
  assert (SessionManager.timer_in_sync m
          ∨ sessions (SessionManager.removeSession Sample.interval "b" m) ≠ sessions m)
    as Hpre by (right; by vm_compute).
  assert (Z.of_nat (length (sessions m)) < 2 ^ 64)%Z as Hsize
    by (vm_compute; reflexivity).
  destruct (timerAdded_tracks_sessions Sample.interval Sample.delta_millis nat
              (Sample.ids_then 0 "a" "b") m _ Hstep)
    as (Hsync & Hreachable & Hlast & _ & Hsweep).
  destruct (Hlast Sample2.first_created eq_refl eq_refl)
    as (Hempty & Hflag & Htimer & Hnext).
  split; [exact Hstep|]. split; [exact Hreach|]. split; [exact Hpre|].
  split; [exact (Hreachable Sample2.accts Hreach)|].
  split; [reflexivity|]. split; [reflexivity|].
  split; [exact Hempty|]. split; [exact Hflag|]. split; [exact Htimer|].
  split; [by vm_compute|].
  split; [exact (Hnext 60%Z (Sample.at_second 2) 0)|].
  split; [exact Hsize | exact (Hsweep Hsize (Sample.at_second 100))].
Defined.

Lemma containerChangedUI_fans_out_witness :
  sessions (Sample.manager [] false) = [] ∧
  SessionManager.containerChangedUI Sample.invalid_id 7 (Sample.manager [] false)
    = Sample.manager [] false ∧
  SessionManager.containerChangedUI_batch [7; 8]%Z (Sample.manager [] false)
    = Sample.manager [] false ∧
  sessions (SessionManager.containerChangedUI Sample.invalid_id 7 Sample.three_sessions)
    = (λ s, if loggedIn s
            then Session.containerChangedUI Sample.invalid_id 7 s
            else s) <$> sessions Sample.three_sessions.
Proof.
  destruct (containerChangedUI_fans_out Sample.invalid_id 7 [7; 8]%Z
              (Sample.manager [] false)) as (_ & _ & _ & _ & Hempty).
  destruct (Hempty eq_refl) as [Hsingle Hbatch].
  split; [reflexivity|]. split; [exact Hsingle|]. split; [exact Hbatch|].
  exact (proj1 (containerChangedUI_fans_out Sample.invalid_id 7 [7; 8]%Z
                  Sample.three_sessions)).
Defined.

(** * Further properties of [Session] *)

Lemma size_list_to_set_le (l : list Z) : size (list_to_set l : gset Z) ≤ length l.
Proof.
  induction l as [|x l IH]; [by rewrite list_to_set_nil, size_empty|].
  rewrite list_to_set_cons, length_cons, size_union_alt, size_singleton.
  assert (size (list_to_set l ∖ {[x]} : gset Z) ≤ size (list_to_set l : gset Z))
    by (apply subseteq_size; set_solver).
  lia.
Qed.

Lemma size_union_le (X Y : gset Z) : size (X ∪ Y) ≤ size X + size Y.
Proof.
  rewrite size_union_alt.
  assert (size (Y ∖ X) ≤ size Y) by (apply subseteq_size; set_solver).
  lia.
Qed.

Lemma session_eta (s : Session) :
  s = {| timeout := timeout s; loggedIn := loggedIn s; sessionID := sessionID s;
         last_access := last_access s; dict := dict s;
         uiUpdateIDs := uiUpdateIDs s; updateAll := updateAll s |}.
Proof. by destruct s. Qed.

Section MoreSessionFacts.

Variable INVALID_OBJECT_ID : Z.
Variable iteration_order : gset Z → list Z.

Local Abbreviation changed := (Session.containerChangedUI INVALID_OBJECT_ID).
Local Abbreviation changed_batch := Session.containerChangedUI_batch.
Local Abbreviation toCSV := (Session.toCSV iteration_order).
Local Abbreviation getUIUpdateIDs := (Session.getUIUpdateIDs iteration_order).
Local Abbreviation run_op := (Session.run_op INVALID_OBJECT_ID iteration_order).
Local Abbreviation run_ops := (Session.run_ops INVALID_OBJECT_ID iteration_order).

(** ** The scratch dictionary *)

(** X1.  [get] returns what the last [put] under the key stored, [put] leaves
    the other keys and the rest of the session alone, and a second [put]
    under a key replaces the first. *)
Theorem put_get_round_trip (s : Session) (key key' value value' : string) :
  Session.get key (Session.put key value s) = value ∧
  (key' ≠ key →
     Session.get key' (Session.put key value s) = Session.get key' s) ∧
  Session.put key value' (Session.put key value s) = Session.put key value' s ∧
  Session.with_dict (dict s) (Session.put key value s) = s.
Proof.
  unfold Session.get, Session.put. cbn [dict Session.with_dict]. split_and!.
  - by rewrite lookup_insert_eq.
  - intros Hne. by rewrite lookup_insert_ne.
  - unfold Session.with_dict. cbn. by rewrite insert_insert_eq.
  - unfold Session.with_dict. cbn. symmetry. apply session_eta.
Qed.

(** ** The bound on the pending ids *)

Lemma run_op_bounded (o : Session.op) (s : Session) :
  size (uiUpdateIDs s) ≤ MAX_UI_UPDATE_IDS →
  size (uiUpdateIDs (run_op o s)) ≤ MAX_UI_UPDATE_IDS.
Proof.
  unfold MAX_UI_UPDATE_IDS. intros Hs.
  destruct o as [objectID|objectIDs| |]; cbn [Session.run_op].
  - unfold Session.containerChangedUI, MAX_UI_UPDATE_IDS.
    case_bool_decide; [done|].
    destruct (updateAll s); cbn [negb]; [done|].
    case_bool_decide; cbn [uiUpdateIDs Session.with_updates].
    + rewrite size_empty. lia.
    + pose proof (size_union_le {[objectID]} (uiUpdateIDs s)) as Hle.
      rewrite size_singleton in Hle. lia.
  - unfold Session.containerChangedUI_batch, MAX_UI_UPDATE_IDS.
    destruct (updateAll s); [done|].
    case_bool_decide; cbn [uiUpdateIDs Session.with_updates].
    + rewrite size_empty. lia.
    + rewrite foldl_insert_ids.
      pose proof (size_union_le (list_to_set objectIDs) (uiUpdateIDs s)).
      pose proof (size_list_to_set_le objectIDs). lia.
  - unfold Session.getUIUpdateIDs.
    destruct (Session.hasUIUpdateIDs s); cbn [negb snd]; [|done].
    destruct (updateAll s); cbn [snd uiUpdateIDs Session.with_updates]; [done|].
    destruct (String.eqb _ _); cbn [negb snd uiUpdateIDs Session.with_updates];
      [done|].
    rewrite size_empty. lia.
  - unfold Session.clearUpdateIDs. cbn [uiUpdateIDs Session.with_updates].
    rewrite size_empty. lia.
Qed.

(** X2.  Whatever sequence of notifications, reads and clears is run on a
    fresh session, it never holds more than [MAX_UI_UPDATE_IDS] pending
    ids. *)
Theorem pending_ids_bounded (tmo : Z) (now : timespec) (os : list Session.op) :
  size (uiUpdateIDs (run_ops os (Session.new tmo now))) ≤ MAX_UI_UPDATE_IDS.
Proof.
  unfold Session.run_ops.
  assert (size (uiUpdateIDs (Session.new tmo now)) ≤ MAX_UI_UPDATE_IDS) as Hfresh.
  { change (uiUpdateIDs (Session.new tmo now)) with (∅ : gset Z).
    rewrite size_empty. unfold MAX_UI_UPDATE_IDS. lia. }
  revert Hfresh. generalize (Session.new tmo now).
  induction os as [|o os IH]; intros s Hs; simpl; [done|].
  apply IH. by apply run_op_bounded.
Qed.

(** ** No notification is lost *)

Lemma changed_has_updates (s : Session) (objectID : Z) :
  objectID ≠ INVALID_OBJECT_ID → Session.hasUIUpdateIDs (changed objectID s) = true.
Proof.
  intros Hvalid. unfold Session.containerChangedUI, Session.hasUIUpdateIDs.
  rewrite bool_decide_eq_false_2 by done.
  destruct (updateAll s) eqn:Hall; simpl; [by rewrite Hall|].
  case_bool_decide; cbn [updateAll uiUpdateIDs Session.with_updates]; [done|].
  apply bool_decide_eq_true_2.
  assert (size ({[objectID]} ∪ uiUpdateIDs s) ≠ 0); [|lia].
  intros Hzero. apply size_empty_inv in Hzero. set_solver.
Qed.

Lemma changed_batch_has_updates (s : Session) (objectIDs : list Z) :
  objectIDs ≠ [] → Session.hasUIUpdateIDs (changed_batch objectIDs s) = true.
Proof.
  intros Hne. unfold Session.containerChangedUI_batch, Session.hasUIUpdateIDs.
  destruct (updateAll s) eqn:Hall; simpl; [by rewrite Hall|].
  case_bool_decide; cbn [updateAll uiUpdateIDs Session.with_updates]; [done|].
  rewrite foldl_insert_ids. apply bool_decide_eq_true_2.
  assert (size (list_to_set objectIDs ∪ uiUpdateIDs s) ≠ 0); [|lia].
  intros Hzero. apply size_empty_inv in Hzero.
  destruct objectIDs as [|x l]; [done|]. set_solver.
Qed.

(** X3.  After the single-id overload is called with a valid id, and after
    the batch overload is called with a non-empty vector, the session has
    updates to deliver, whatever state it was in: it is in [updateAll] mode
    or the id is pending. *)
Theorem notification_leaves_updates (s : Session) (objectID : Z) (objectIDs : list Z) :
  (objectID ≠ INVALID_OBJECT_ID →
     Session.hasUIUpdateIDs (changed objectID s) = true ∧
     (updateAll (changed objectID s) = true
      ∨ objectID ∈ uiUpdateIDs (changed objectID s))) ∧
  (objectIDs ≠ [] →
     Session.hasUIUpdateIDs (changed_batch objectIDs s) = true ∧
     (updateAll (changed_batch objectIDs s) = true
      ∨ ∀ x, x ∈ objectIDs → x ∈ uiUpdateIDs (changed_batch objectIDs s))).
Proof.
  split.
  - intros Hvalid. split; [by apply changed_has_updates|].
    unfold Session.containerChangedUI.
    rewrite bool_decide_eq_false_2 by done.
    destruct (updateAll s) eqn:Hall; simpl; [by left|].
    case_bool_decide; cbn [updateAll uiUpdateIDs Session.with_updates];
      [by left | right; set_solver].
  - intros Hne. split; [by apply changed_batch_has_updates|].
    unfold Session.containerChangedUI_batch.
    destruct (updateAll s) eqn:Hall; simpl; [by left|].
    case_bool_decide; cbn [updateAll uiUpdateIDs Session.with_updates]; [by left|].
    right. intros x Hx. rewrite foldl_insert_ids. set_solver.
Qed.

(** ** Reading what was notified *)

(** Repeated ids do not count: as long as fewer than ten distinct ids are
    pending in the end, all the ids of a run are inserted. *)
Lemma foldl_changed_few (objectIDs : list Z) (s : Session) :
  updateAll s = false → INVALID_OBJECT_ID ∉ objectIDs →
  size (list_to_set objectIDs ∪ uiUpdateIDs s) < 10 →
  foldl (λ s objectID, changed objectID s) s objectIDs
  = Session.with_updates false (list_to_set objectIDs ∪ uiUpdateIDs s) s.
Proof.
  revert s. induction objectIDs as [|x l IH]; intros s Hall Hvalid Hsize.
  - rewrite list_to_set_nil, (left_id_L ∅ (∪)). simpl.
    rewrite (session_eta s) at 1. unfold Session.with_updates. by rewrite Hall.
  - apply not_elem_of_cons in Hvalid as [Hx Hvalid].
    rewrite list_to_set_cons in Hsize |- *. simpl foldl.
    assert (size (uiUpdateIDs s) ≤ size ({[x]} ∪ list_to_set l ∪ uiUpdateIDs s))
      by (apply subseteq_size; set_solver).
    rewrite (changed_below_cap INVALID_OBJECT_ID) by (done || lia).
    rewrite IH; [|done|done|].
    + cbn [uiUpdateIDs Session.with_updates].
      assert (list_to_set l ∪ ({[x]} ∪ uiUpdateIDs s)
              = ({[x]} ∪ list_to_set l ∪ uiUpdateIDs s : gset Z)) as -> by set_solver.
      done.
    + cbn [uiUpdateIDs Session.with_updates].
      assert (list_to_set l ∪ ({[x]} ∪ uiUpdateIDs s)
              = ({[x]} ∪ list_to_set l ∪ uiUpdateIDs s : gset Z)) as -> by set_solver.
      done.
Qed.

Section MoreRendering.

Hypothesis iteration_order_perm : ∀ X, iteration_order X ≡ₚ elements X.

Lemma getUIUpdateIDs_pending (s : Session) :
  updateAll s = false → uiUpdateIDs s ≠ ∅ →
  getUIUpdateIDs s = (toCSV (uiUpdateIDs s), Session.with_updates false ∅ s).
Proof.
  intros Hall Hids. unfold Session.getUIUpdateIDs, Session.hasUIUpdateIDs.
  rewrite Hall.
  rewrite bool_decide_eq_true_2
    by (apply Nat.neq_0_lt_0; intros H0; by apply size_empty_inv, leibniz_equiv in H0).
  cbn [negb].
  rewrite (toCSV_eqb_empty iteration_order iteration_order_perm).
  rewrite bool_decide_eq_false_2 by done. done.
Qed.

Lemma getUIUpdateIDs_nothing (s : Session) :
  updateAll s = false → uiUpdateIDs s = ∅ → getUIUpdateIDs s = ("", s).
Proof.
  intros Hall Hids. unfold Session.getUIUpdateIDs, Session.hasUIUpdateIDs.
  by rewrite Hall, Hids, size_empty.
Qed.

(** X4.  When a run of single-id notifications to a fresh session names
    fewer than ten distinct ids, all valid, however often each is repeated,
    the next [getUIUpdateIDs] returns the numerals of exactly these ids, each
    once, joined by commas, and leaves the session as fresh as it was. *)
Theorem few_ids_reported_once (tmo : Z) (now : timespec) (objectIDs : list Z) :
  INVALID_OBJECT_ID ∉ objectIDs →
  size (list_to_set objectIDs : gset Z) < 10 →
  let s := foldl (λ s objectID, changed objectID s) (Session.new tmo now) objectIDs in
  let r := getUIUpdateIDs s in
  (∃ l, NoDup l ∧ (∀ x, x ∈ l ↔ x ∈ objectIDs) ∧
        r.1 = String.concat "," (pretty <$> l)) ∧
  r.2 = Session.new tmo now.
Proof.
  intros Hvalid Hsize. cbv zeta.
  rewrite foldl_changed_few; [|done|done|].
  2:{ change (uiUpdateIDs (Session.new tmo now)) with (∅ : gset Z).
      by rewrite (right_id_L ∅ (∪)). }
  change (uiUpdateIDs (Session.new tmo now)) with (∅ : gset Z).
  rewrite (right_id_L ∅ (∪)).
  set (X := list_to_set objectIDs : gset Z).
  assert (NoDup (iteration_order X) ∧ ∀ x, x ∈ iteration_order X ↔ x ∈ objectIDs)
    as [Hnd Hin].
  { split.
    - rewrite iteration_order_perm. apply NoDup_elements.
    - intros x. rewrite iteration_order_perm, elem_of_elements.
      unfold X. by rewrite elem_of_list_to_set. }
  destruct (decide (X = ∅)) as [HX|HX].
  - rewrite getUIUpdateIDs_nothing by done. split; [|by rewrite HX].
    exists (iteration_order X). split_and!; [done|done|].
    assert (iteration_order X = []) as ->; [|done].
    apply Permutation_nil_r. by rewrite iteration_order_perm, HX, elements_empty.
  - rewrite getUIUpdateIDs_pending by done. split; [|done].
    exists (iteration_order X). done.
Qed.

(** X5.  [hasUIUpdateIDs] tells what the next [getUIUpdateIDs] does: when it
    is false the read returns the empty string and changes nothing, when it
    is true the read returns a non-empty string. *)
Theorem hasUIUpdateIDs_announces_read (s : Session) :
  (Session.hasUIUpdateIDs s = false → getUIUpdateIDs s = ("", s)) ∧
  (Session.hasUIUpdateIDs s = true → (getUIUpdateIDs s).1 ≠ "").
Proof.
  split.
  - intros Hhas. unfold Session.getUIUpdateIDs. by rewrite Hhas.
  - unfold Session.hasUIUpdateIDs.
    destruct (updateAll s) eqn:Hall.
    + intros _. unfold Session.getUIUpdateIDs, Session.hasUIUpdateIDs.
      rewrite Hall. done.
    + intros Hsize. apply bool_decide_eq_true in Hsize.
      assert (uiUpdateIDs s ≠ ∅) as Hids.
      { intros Hempty. rewrite Hempty, size_empty in Hsize. lia. }
      rewrite getUIUpdateIDs_pending by done.
      by apply (toCSV_nonempty iteration_order iteration_order_perm).
Qed.

(** X6.  On a session in which [updateAll] excludes pending ids (as it does
    in every session run from a fresh one), [getUIUpdateIDs] leaves the
    session exactly as [clearUpdateIDs] does, and nothing to read. *)
Theorem getUIUpdateIDs_clears (s : Session) :
  Session.exclusive_modes s →
  (getUIUpdateIDs s).2 = Session.clearUpdateIDs s ∧
  Session.hasUIUpdateIDs (getUIUpdateIDs s).2 = false.
Proof.
  intros Hexcl.
  assert ((getUIUpdateIDs s).2 = Session.clearUpdateIDs s) as ->.
  { unfold Session.clearUpdateIDs.
    destruct (updateAll s) eqn:Hall.
    - unfold Session.getUIUpdateIDs, Session.hasUIUpdateIDs. rewrite Hall.
      cbn [negb snd]. by rewrite (Hexcl Hall).
    - destruct (decide (uiUpdateIDs s = ∅)) as [Hids|Hids].
      + rewrite getUIUpdateIDs_nothing by done. cbn [snd].
        rewrite (session_eta s) at 1. unfold Session.with_updates.
        by rewrite Hall, Hids.
      + by rewrite getUIUpdateIDs_pending. }
  split; [done|].
  unfold Session.hasUIUpdateIDs, Session.clearUpdateIDs.
  cbn [updateAll uiUpdateIDs Session.with_updates]. by rewrite size_empty.
Qed.

End MoreRendering.

End MoreSessionFacts.

(** * Further properties of [SessionManager] *)

(** ** Lookup in a list of sessions *)

Lemma getSession_loop_app (sid : string) (l l' : list Session) :
  SessionManager.getSession_loop sid (l ++ l')
  = match SessionManager.getSession_loop sid l with
    | Some s => Some s
    | None => SessionManager.getSession_loop sid l'
    end.
Proof.
  induction l as [|x l IH]; simpl; [done|].
  by destruct (String.eqb _ _).
Qed.

Lemma getSession_loop_fmap (f : Session → Session) (sid : string) (l : list Session) :
  (∀ s, sessionID (f s) = sessionID s) →
  SessionManager.getSession_loop sid (f <$> l)
  = f <$> SessionManager.getSession_loop sid l.
Proof.
  intros Hid. induction l as [|x l IH]; simpl; [done|].
  rewrite Hid. by destruct (String.eqb _ _).
Qed.

Lemma getSession_loop_elem (l : list Session) (s : Session) :
  NoDup (sessionID <$> l) → s ∈ l →
  SessionManager.getSession_loop (sessionID s) l = Some s.
Proof.
  induction l as [|x l IH]; intros Hnd Hin; [by apply elem_of_nil in Hin|].
  rewrite fmap_cons in Hnd. apply NoDup_cons in Hnd as [Hx Hnd]. simpl.
  apply elem_of_cons in Hin as [->|Hin]; [by rewrite String.eqb_refl|].
  destruct (String.eqb_spec (sessionID x) (sessionID s)) as [Heq|Hne]; [|by apply IH].
  destruct Hx. rewrite Heq. by apply list_elem_of_fmap_2.
Qed.

Lemma getSession_loop_filter_other (P : Session → Prop) `{!∀ s, Decision (P s)}
    (sid : string) (l : list Session) :
  (∀ s, sessionID s = sid → P s) →
  SessionManager.getSession_loop sid (filter P l) = SessionManager.getSession_loop sid l.
Proof.
  intros HP. induction l as [|x l IH]; [done|].
  destruct (decide (P x)) as [Hx|Hx].
  - rewrite filter_cons_True by done. simpl. by rewrite IH.
  - rewrite filter_cons_False by done. simpl.
    destruct (String.eqb_spec (sessionID x) sid) as [Heq|Hne]; [|done].
    destruct Hx. by apply HP.
Qed.

Lemma getSession_loop_filter (P : Session → Prop) `{!∀ s, Decision (P s)}
    (l : list Session) (s : Session) :
  NoDup (sessionID <$> l) → s ∈ l →
  SessionManager.getSession_loop (sessionID s) (filter P l)
  = if decide (P s) then Some s else None.
Proof.
  intros Hnd Hin. destruct (decide (P s)) as [Hs|Hs].
  - apply getSession_loop_elem.
    + eapply sublist_NoDup; [exact Hnd|]. apply fmap_sublist, sublist_filter.
    + by apply list_elem_of_filter.
  - apply getSession_loop_None. intros Hid.
    apply list_elem_of_fmap in Hid as (x & Hx & Hfx).
    apply list_elem_of_filter in Hfx as [HPx Hxl].
    assert (x = s) as ->; [|done].
    assert (SessionManager.getSession_loop (sessionID s) l = Some x) as H1
      by (rewrite Hx; by apply getSession_loop_elem).
    assert (SessionManager.getSession_loop (sessionID s) l = Some s) as H2
      by (by apply getSession_loop_elem).
    congruence.
Qed.

Lemma filter_other_ids (sid : string) (l : list Session) :
  sid ∉ (sessionID <$> l) → filter (λ x, sessionID x ≠ sid) l = l.
Proof.
  induction l as [|x l IH]; [done|].
  rewrite fmap_cons, not_elem_of_cons. intros [Hx Hl].
  rewrite filter_cons_True by done. by rewrite IH.
Qed.

(** ** The timer calls *)

Lemma replay_app (b : bool) (l l' : list TimerCall) :
  Timer.replay b (l ++ l')
  = match Timer.replay b l with
    | Some b' => Timer.replay b' l'
    | None => None
    end.
Proof.
  revert b. induction l as [|c l IH]; intros b; simpl; [done|].
  destruct c, b; by rewrite ?IH.
Qed.

Section MoreManagerFacts.

Variable INVALID_OBJECT_ID : Z.
Variable SESSION_TIMEOUT_CHECK_INTERVAL : Z.
Variable getDeltaMillis : timespec → timespec → Z.
Variable rng : Type.
Variable generate_random_id : rng → string * rng.

Local Abbreviation checkTimer := (SessionManager.checkTimer SESSION_TIMEOUT_CHECK_INTERVAL).
Local Abbreviation createSession_loop :=
  (SessionManager.createSession_loop rng generate_random_id).
Local Abbreviation createSession :=
  (SessionManager.createSession SESSION_TIMEOUT_CHECK_INTERVAL rng generate_random_id).
Local Abbreviation removeSession :=
  (SessionManager.removeSession SESSION_TIMEOUT_CHECK_INTERVAL).
Local Abbreviation removeSession_loop :=
  (SessionManager.removeSession_loop SESSION_TIMEOUT_CHECK_INTERVAL).
Local Abbreviation timerNotify :=
  (SessionManager.timerNotify SESSION_TIMEOUT_CHECK_INTERVAL getDeltaMillis).
Local Abbreviation timerNotify_loop :=
  (SessionManager.timerNotify_loop SESSION_TIMEOUT_CHECK_INTERVAL getDeltaMillis).
Local Abbreviation timed_out := (SessionManager.timed_out getDeltaMillis).
Local Abbreviation step :=
  (SessionManager.step SESSION_TIMEOUT_CHECK_INTERVAL getDeltaMillis rng generate_random_id).
Local Abbreviation move :=
  (SessionManager.move SESSION_TIMEOUT_CHECK_INTERVAL getDeltaMillis rng generate_random_id).

(** ** Looking sessions up *)

(** X7.  [getSession] returns [nullptr] exactly when no live session has the
    id; a session it returns is live and has the id; and when the ids of the
    live sessions are pairwise distinct, every live session is found under
    its id. *)
Theorem getSession_finds_by_id (m : SessionManager) (sid : string) :
  (SessionManager.getSession sid m = None ↔ sid ∉ (sessionID <$> sessions m)) ∧
  (∀ s, SessionManager.getSession sid m = Some s →
        s ∈ sessions m ∧ sessionID s = sid) ∧
  (NoDup (sessionID <$> sessions m) →
   ∀ s, s ∈ sessions m → SessionManager.getSession (sessionID s) m = Some s).
Proof.
  unfold SessionManager.getSession. split_and!.
  - apply getSession_loop_None.
  - intros s. apply getSession_loop_Some.
  - intros Hnd s Hs. by apply getSession_loop_elem.
Qed.

(** X8.  A session that [createSession] returns is found by [getSession]
    under its id from then on, and the lookup of every other id answers as
    before. *)
Theorem createSession_then_getSession
    (tmo : Z) (now : timespec) (r r' : rng) (m m' : SessionManager) (s : Session) :
  createSession tmo now r m = Some (Ok (s, m'), r') →
  SessionManager.getSession (sessionID s) m' = Some s ∧
  (∀ sid, sid ≠ sessionID s →
     SessionManager.getSession sid m' = SessionManager.getSession sid m).
Proof.
  intros Hcreate.
  destruct (createSession_appends _ _ _ _ _ _ _ _ _ _ Hcreate) as [Hfree Hsessions].
  unfold SessionManager.getSession in *. rewrite Hsessions, !getSession_loop_app.
  split.
  - rewrite Hfree. simpl. by rewrite String.eqb_refl.
  - intros sid Hne. rewrite getSession_loop_app.
    destruct (SessionManager.getSession_loop sid (sessions m)); [done|].
    simpl. destruct (String.eqb_spec (sessionID s) sid); [by subst|done].
Qed.

(** ** Removing by id *)

(** With [pre] the sessions before index [i]: the loop leaves the manager
    alone when no later session has the id, and otherwise erases the first
    one that has it. *)
Lemma removeSession_loop_first (sid : string) (rest pre : list Session)
    (m : SessionManager) :
  sessions m = pre ++ rest →
  (sid ∉ (sessionID <$> rest) → removeSession_loop sid (length pre) rest m = m) ∧
  (∀ r1 s r2, rest = r1 ++ s :: r2 → sid ∉ (sessionID <$> r1) → sessionID s = sid →
     removeSession_loop sid (length pre) rest m
     = checkTimer (SessionManager.with_sessions (pre ++ r1 ++ r2) m)).
Proof.
  revert pre. induction rest as [|x rest IH]; intros pre Hm.
  - split; [done|]. intros r1 s r2 Hsplit. by destruct r1.
  - cbn [SessionManager.removeSession_loop].
    destruct (String.eqb_spec (sessionID x) sid) as [Heq|Hne].
    + split.
      * rewrite fmap_cons, not_elem_of_cons. intros [Hx _]. by destruct Hx.
      * intros r1 s r2 Hsplit Hr1 Hs. destruct r1 as [|y r1].
        -- injection Hsplit as <- <-. by rewrite Hm, delete_middle.
        -- injection Hsplit as <- _. destruct Hr1. rewrite fmap_cons, Heq. left.
    + destruct (IH (pre ++ [x])) as [Habsent Hfirst];
        [by rewrite <- app_assoc|].
      rewrite length_app, Nat.add_1_r in Habsent, Hfirst. split.
      * rewrite fmap_cons, not_elem_of_cons. intros [_ Hrest]. by apply Habsent.
      * intros r1 s r2 Hsplit Hr1 Hs. destruct r1 as [|y r1].
        -- injection Hsplit as -> _. by destruct Hne.
        -- injection Hsplit as <- Hrest.
           rewrite fmap_cons, not_elem_of_cons in Hr1. destruct Hr1 as [_ Hr1].
           rewrite (Hfirst r1 s r2 Hrest Hr1 Hs). by rewrite <- app_assoc.
Qed.

(** X9.  [removeSession] with an id that no live session has changes nothing
    (no timer call either).  With the id of a live session, the ids being
    pairwise distinct, it removes that session and no other, keeping the
    order; the id is not found afterwards and the lookup of every other id
    answers as before. *)
Theorem removeSession_removes_by_id (m : SessionManager) (sid : string) :
  (sid ∉ (sessionID <$> sessions m) → removeSession sid m = m) ∧
  (NoDup (sessionID <$> sessions m) → sid ∈ (sessionID <$> sessions m) →
     let m' := removeSession sid m in
     sessions m' = filter (λ x, sessionID x ≠ sid) (sessions m) ∧
     S (length (sessions m')) = length (sessions m) ∧
     SessionManager.getSession sid m' = None ∧
     (∀ sid', sid' ≠ sid →
        SessionManager.getSession sid' m' = SessionManager.getSession sid' m)).
Proof.
  destruct (removeSession_loop_first sid (sessions m) [] m eq_refl)
    as [Habsent Hfirst].
  cbn [length app] in Habsent, Hfirst.
  split; [exact Habsent|].
  intros Hnd Hin. cbv zeta.
  apply list_elem_of_fmap in Hin as (s & Hs & Hin).
  apply list_elem_of_split in Hin as (l1 & l2 & Hsplit).
  rewrite Hsplit, fmap_app, fmap_cons in Hnd.
  apply NoDup_app in Hnd as (_ & Hl1 & Hnd).
  apply NoDup_cons in Hnd as [Hl2 _].
  subst sid.
  assert (sessionID s ∉ sessionID <$> l1) as Hl1'.
  { intros Hin. apply (Hl1 _ Hin). left. }
  assert (sessions (removeSession (sessionID s) m) = filter (λ x, sessionID x ≠ sessionID s) (sessions m))
    as Hsessions.
  { unfold SessionManager.removeSession.
    rewrite (Hfirst l1 s l2 Hsplit Hl1' eq_refl), checkTimer_sessions.
    cbn [sessions SessionManager.with_sessions app].
    rewrite Hsplit, filter_app, filter_cons_False by (intros Hne; by apply Hne).
    by rewrite !filter_other_ids. }
  split_and!.
  - done.
  - rewrite Hsessions, Hsplit, filter_app, filter_cons_False
      by (intros Hne; by apply Hne).
    rewrite !filter_other_ids by done. rewrite !length_app. simpl. lia.
  - unfold SessionManager.getSession. rewrite Hsessions.
    apply getSession_loop_None. intros Hid.
    apply list_elem_of_fmap in Hid as (x & Hx & Hfx).
    apply list_elem_of_filter in Hfx as [Hne _]. by apply Hne.
  - intros sid' Hne. unfold SessionManager.getSession. rewrite Hsessions.
    apply getSession_loop_filter_other. intros x Hx. by rewrite Hx.
Qed.

(** ** A new session and the notifications *)

Lemma changed_sessionID (objectID : Z) (s : Session) :
  sessionID (Session.containerChangedUI INVALID_OBJECT_ID objectID s) = sessionID s.
Proof.
  unfold Session.containerChangedUI.
  case_bool_decide; [done|]. destruct (updateAll s); [done|]. simpl.
  by case_bool_decide.
Qed.

Lemma changed_batch_sessionID (objectIDs : list Z) (s : Session) :
  sessionID (Session.containerChangedUI_batch objectIDs s) = sessionID s.
Proof.
  unfold Session.containerChangedUI_batch.
  destruct (updateAll s); [done|]. by case_bool_decide.
Qed.

Lemma changed_loggedIn (objectID : Z) (s : Session) :
  loggedIn (Session.containerChangedUI INVALID_OBJECT_ID objectID s) = loggedIn s.
Proof.
  unfold Session.containerChangedUI.
  case_bool_decide; [done|]. destruct (updateAll s); [done|]. simpl.
  by case_bool_decide.
Qed.

Lemma changed_batch_loggedIn (objectIDs : list Z) (s : Session) :
  loggedIn (Session.containerChangedUI_batch objectIDs s) = loggedIn s.
Proof.
  unfold Session.containerChangedUI_batch.
  destruct (updateAll s); [done|]. by case_bool_decide.
Qed.

(** What the two overloads of the manager do to the registry. *)
Lemma manager_changed_sessions (objectID : Z) (m : SessionManager) :
  sessions (SessionManager.containerChangedUI INVALID_OBJECT_ID objectID m)
  = (λ s, if loggedIn s
          then Session.containerChangedUI INVALID_OBJECT_ID objectID s
          else s) <$> sessions m.
Proof.
  unfold SessionManager.containerChangedUI.
  destruct (sessions m) as [|s l] eqn:Hl; [done|].
  rewrite bool_decide_eq_false_2 by (simpl; lia).
  cbn [sessions SessionManager.with_sessions].
  rewrite containerChangedUI_loop_map by lia. by rewrite take_0, drop_0.
Qed.

Lemma manager_changed_batch_sessions (objectIDs : list Z) (m : SessionManager) :
  sessions (SessionManager.containerChangedUI_batch objectIDs m)
  = (λ s, if loggedIn s then Session.containerChangedUI_batch objectIDs s else s)
      <$> sessions m.
Proof.
  unfold SessionManager.containerChangedUI_batch.
  destruct (sessions m) as [|s l] eqn:Hl; [done|].
  rewrite bool_decide_eq_false_2 by (simpl; lia).
  cbn [sessions SessionManager.with_sessions].
  rewrite containerChangedUI_loop_map by lia. by rewrite take_0, drop_0.
Qed.

Lemma getSession_manager_changed (objectID : Z) (sid : string) (m : SessionManager) :
  SessionManager.getSession sid
    (SessionManager.containerChangedUI INVALID_OBJECT_ID objectID m)
  = (λ s, if loggedIn s
          then Session.containerChangedUI INVALID_OBJECT_ID objectID s
          else s) <$> SessionManager.getSession sid m.
Proof.
  unfold SessionManager.getSession. rewrite manager_changed_sessions.
  apply getSession_loop_fmap.
  intros x. destruct (loggedIn x); [apply changed_sessionID | done].
Qed.

Lemma getSession_manager_changed_batch (objectIDs : list Z) (sid : string)
    (m : SessionManager) :
  SessionManager.getSession sid (SessionManager.containerChangedUI_batch objectIDs m)
  = (λ s, if loggedIn s then Session.containerChangedUI_batch objectIDs s else s)
      <$> SessionManager.getSession sid m.
Proof.
  unfold SessionManager.getSession. rewrite manager_changed_batch_sessions.
  apply getSession_loop_fmap.
  intros x. destruct (loggedIn x); [apply changed_batch_sessionID | done].
Qed.

(** X10.  The session that [createSession] returns is not logged in and has
    nothing pending, and a change notification of the manager, of either
    overload, leaves it as it is: a session collects no updates before it is
    logged in. *)
Theorem new_session_not_notified
    (tmo : Z) (now : timespec) (r r' : rng) (m m' : SessionManager) (s : Session)
    (objectID : Z) (objectIDs : list Z) :
  createSession tmo now r m = Some (Ok (s, m'), r') →
  loggedIn s = false ∧ Session.hasUIUpdateIDs s = false ∧
  timeout s = tmo ∧ last_access s = now ∧
  SessionManager.getSession (sessionID s)
    (SessionManager.containerChangedUI INVALID_OBJECT_ID objectID m') = Some s ∧
  SessionManager.getSession (sessionID s)
    (SessionManager.containerChangedUI_batch objectIDs m') = Some s.
Proof.
  intros Hcreate.
  destruct (createSession_appends _ _ _ _ _ _ _ _ _ _ Hcreate) as [Hfree Hsessions].
  assert (s = Session.setID (sessionID s) (Session.new tmo now)) as Hs.
  { unfold SessionManager.createSession in Hcreate.
    destruct (createSession_loop 102 0 r m) as [[[sid|what] r1]|]; [|done..].
    by injection Hcreate as <- _ _. }
  assert (loggedIn s = false) as Hout by (by rewrite Hs).
  assert (SessionManager.getSession (sessionID s) m' = Some s) as Hfound.
  { unfold SessionManager.getSession in *.
    rewrite Hsessions, getSession_loop_app, Hfree. simpl.
    by rewrite String.eqb_refl. }
  split_and!; try (by rewrite Hs).
  - rewrite getSession_manager_changed, Hfound. simpl. by rewrite Hout.
  - rewrite getSession_manager_changed_batch, Hfound. simpl. by rewrite Hout.
Qed.

(** X11.  After a change notification of the manager with a valid id, every
    logged-in session has updates to deliver; the registry holds the same
    ids and login flags in the same order, and a lookup finds the notified
    version of the session it found before. *)
Theorem manager_notification_reaches_logged_in
    (objectID : Z) (m : SessionManager) :
  objectID ≠ INVALID_OBJECT_ID →
  let m' := SessionManager.containerChangedUI INVALID_OBJECT_ID objectID m in
  (∀ s, s ∈ sessions m' → loggedIn s = true → Session.hasUIUpdateIDs s = true) ∧
  sessionID <$> sessions m' = sessionID <$> sessions m ∧
  loggedIn <$> sessions m' = loggedIn <$> sessions m ∧
  (∀ sid, SessionManager.getSession sid m'
          = (λ s, if loggedIn s
                  then Session.containerChangedUI INVALID_OBJECT_ID objectID s
                  else s) <$> SessionManager.getSession sid m).
Proof.
  intros Hvalid. cbv zeta. rewrite manager_changed_sessions. split_and!.
  - intros s Hs Hin. apply list_elem_of_fmap in Hs as (x & -> & _).
    destruct (loggedIn x) eqn:Hx; [|congruence].
    by apply changed_has_updates.
  - rewrite <- list_fmap_compose. apply list_fmap_ext. intros _ x _. simpl.
    destruct (loggedIn x); [apply changed_sessionID | done].
  - rewrite <- list_fmap_compose. apply list_fmap_ext. intros _ x _. simpl.
    destruct (loggedIn x) eqn:Hx; [|done]. by rewrite changed_loggedIn.
  - intros sid. apply getSession_manager_changed.
Qed.

(** ** The account list *)

Lemma timerNotify_loop_accounts (now : timespec) (fuel : nat) (i : Z)
    (m m' : SessionManager) :
  timerNotify_loop fuel now i m = Some m' →
  accounts m' = accounts m ∧ timerAdded m' = timerAdded m ∧ timer m' = timer m
  ∨ accounts m' = accounts m ∧ sessions m' ≠ sessions m.
Proof.
  revert i m. induction fuel as [|fuel IH]; intros i m; simpl; [done|].
  case_bool_decide as Hi; [|intros [= <-]; by left].
  destruct (sessions m !! Z.to_nat i) as [session|] eqn:Hsession; [|done].
  destruct (timed_out now session); [|apply IH].
  intros Hloop. right.
  assert (length (sessions m') < length (sessions m)) as Hshorter.
  { apply timerNotify_loop_sublist, sublist_length in Hloop.
    rewrite checkTimer_sessions in Hloop.
    cbn [sessions SessionManager.with_sessions] in Hloop.
    rewrite length_delete in Hloop by (by eexists). 
    apply lookup_lt_Some in Hsession. lia. }
  split; [|intros Heq; rewrite Heq in Hshorter; lia].
  apply IH in Hloop. rewrite checkTimer_accounts in Hloop. by destruct Hloop as [(?&?&?)|[? ?]].
Qed.

Lemma move_accounts (m m' : SessionManager) : move m m' → accounts m' = accounts m.
Proof.
  intros [Hstep|Htouch].
  - destruct Hstep as [tmo now r s m' r' Hcreate|tmo now r what r' Hcreate|sid|now m' Hsweep].
    + unfold SessionManager.createSession in Hcreate.
      destruct (createSession_loop 102 0 r m) as [[[sid|what] r1]|]; [|done..].
      injection Hcreate as _ <- _. by rewrite checkTimer_accounts.
    + done.
    + unfold SessionManager.removeSession.
      destruct (removeSession_loop_cases SESSION_TIMEOUT_CHECK_INTERVAL sid 0
                  (sessions m) m) as [->|[j ->]]; [done|].
      by rewrite checkTimer_accounts.
    + apply timerNotify_loop_accounts in Hsweep. by destruct Hsweep as [(?&?&?)|[? ?]].
  - by destruct Htouch.
Qed.

(** X12.  The account list is read-only: in every state reached from the
    constructor, and after a change notification in it, [getUserPassword]
    answers as it did right after construction. *)
Theorem getUserPassword_from_configuration
    (accts : gmap string string) (m : SessionManager) (user : string)
    (objectID : Z) (objectIDs : list Z) :
  rtc move (SessionManager.new accts) m →
  accounts m = accts ∧
  SessionManager.getUserPassword user m
    = SessionManager.getUserPassword user (SessionManager.new accts) ∧
  SessionManager.getUserPassword user
    (SessionManager.containerChangedUI INVALID_OBJECT_ID objectID m)
    = SessionManager.getUserPassword user (SessionManager.new accts) ∧
  SessionManager.getUserPassword user
    (SessionManager.containerChangedUI_batch objectIDs m)
    = SessionManager.getUserPassword user (SessionManager.new accts).
Proof.
  intros Hreach.
  assert (accounts m = accts) as Haccounts.
  { revert m Hreach. apply rtc_ind_r; [done|].
    intros m0 m1 _ Hmove <-. by apply move_accounts. }
  unfold SessionManager.getUserPassword,
    SessionManager.containerChangedUI, SessionManager.containerChangedUI_batch.
  case_bool_decide; cbn [accounts SessionManager.with_sessions SessionManager.new];
    by rewrite Haccounts.
Qed.

(** ** The calls made on the timer *)

Lemma checkTimer_replay (m : SessionManager) :
  Timer.replay false (timer m) = Some (timerAdded m) →
  Timer.replay false (timer (checkTimer m)) = Some (timerAdded (checkTimer m)).
Proof.
  intros Hm. unfold SessionManager.checkTimer.
  destruct (timerAdded m) eqn:Hadded; rewrite ?andb_false_r, ?andb_true_r; cbn [negb].
  - case_bool_decide; [|by rewrite Hm, Hadded].
    cbn [timer timerAdded SessionManager.with_timer].
    by rewrite replay_app, Hm.
  - case_bool_decide; [|by rewrite Hm, Hadded].
    cbn [timer timerAdded SessionManager.with_timer].
    by rewrite replay_app, Hm.
Qed.

Lemma timerNotify_loop_replay (now : timespec) (fuel : nat) (i : Z)
    (m m' : SessionManager) :
  timerNotify_loop fuel now i m = Some m' →
  Timer.replay false (timer m) = Some (timerAdded m) →
  Timer.replay false (timer m') = Some (timerAdded m').
Proof.
  revert i m. induction fuel as [|fuel IH]; intros i m; simpl; [done|].
  case_bool_decide; [|by intros [= <-]].
  destruct (sessions m !! Z.to_nat i) as [session|]; [|done].
  destruct (timed_out now session); [|apply IH].
  intros Hloop Hm. eapply IH; [exact Hloop|]. by apply checkTimer_replay.
Qed.

Lemma move_replay (m m' : SessionManager) :
  move m m' →
  Timer.replay false (timer m) = Some (timerAdded m) →
  Timer.replay false (timer m') = Some (timerAdded m').
Proof.
  intros [Hstep|Htouch] Hm.
  - destruct Hstep as [tmo now r s m' r' Hcreate|tmo now r what r' Hcreate|sid|now m' Hsweep].
    + unfold SessionManager.createSession in Hcreate.
      destruct (createSession_loop 102 0 r m) as [[[sid|what] r1]|]; [|done..].
      injection Hcreate as _ <- _. by apply checkTimer_replay.
    + done.
    + unfold SessionManager.removeSession.
      destruct (removeSession_loop_cases SESSION_TIMEOUT_CHECK_INTERVAL sid 0
                  (sessions m) m) as [->|[j ->]]; [done|].
      by apply checkTimer_replay.
    + by eapply timerNotify_loop_replay.
  - by destruct Htouch.
Qed.

(** X13.  In every state reached from the constructor, the calls the manager
    has made on the timer alternate, starting with [addTimerSubscriber]: it
    never adds itself while subscribed and never removes itself while not,
    and [timerAdded] tells whether the last call was an add. *)
Theorem timer_calls_alternate (accts : gmap string string) (m : SessionManager) :
  rtc move (SessionManager.new accts) m →
  Timer.replay false (timer m) = Some (timerAdded m).
Proof.
  revert m. apply rtc_ind_r; [done|].
  intros m0 m1 _ Hmove Hm0. by eapply move_replay.
Qed.

(** ** More on the sweep *)

(** The sweep leaves a registry in which nothing has timed out as it is. *)
Lemma timerNotify_loop_nothing (now : timespec) (fuel i : nat) (m : SessionManager) :
  i ≤ length (sessions m) →
  (Z.of_nat (length (sessions m)) < 2 ^ 64)%Z →
  length (sessions m) - i < fuel →
  Forall (λ s, timed_out now s = false) (drop i (sessions m)) →
  timerNotify_loop fuel now (Z.of_nat i) m = Some m.
Proof.
  revert i. induction fuel as [|fuel IH]; intros i Hi Hsize Hfuel Hkeep; [lia|].
  simpl. case_bool_decide as Hlt; [|done].
  rewrite Nat2Z.id.
  destruct (lookup_lt_is_Some_2 (sessions m) i) as [session Hsession]; [lia|].
  rewrite Hsession. rewrite (drop_S _ _ _ Hsession) in Hkeep.
  apply Forall_cons in Hkeep as [-> Hkeep].
  rewrite wrap64_small by lia.
  replace (Z.of_nat i + 1)%Z with (Z.of_nat (S i)) by lia.
  apply IH; [lia|done|lia|done].
Qed.

Lemma timerNotify_filter (now : timespec) (m m' : SessionManager) :
  (Z.of_nat (length (sessions m)) < 2 ^ 64)%Z →
  timerNotify now m = Some m' →
  sessions m' = filter (λ s, ¬ (wrap_long (1000 * timeout s)
                                < getDeltaMillis (last_access s) now)%Z)
                       (sessions m).
Proof.
  intros Hsize Hsweep.
  destruct (timerNotify_loop_filter SESSION_TIMEOUT_CHECK_INTERVAL getDeltaMillis
              now (S (length (sessions m))) 0 m)
    as (m2 & Hloop & Hsessions & _); [lia|done|lia|].
  unfold SessionManager.timerNotify in Hsweep.
  change (Z.of_nat 0) with 0%Z in Hloop. rewrite Hloop in Hsweep.
  injection Hsweep as <-. by rewrite take_0, drop_0 in Hsessions.
Qed.

(** X14.  A second sweep at the same instant finds nothing to do: it returns
    the manager that the first one left, with no further timer call. *)
Theorem timerNotify_idempotent (now : timespec) (m m' : SessionManager) :
  (Z.of_nat (length (sessions m)) < 2 ^ 64)%Z →
  timerNotify now m = Some m' →
  timerNotify now m' = Some m'.
Proof.
  intros Hsize Hsweep.
  pose proof (timerNotify_filter now m m' Hsize Hsweep) as Hsessions.
  assert (length (sessions m') ≤ length (sessions m)) as Hlen
    by (rewrite Hsessions; apply length_filter).
  unfold SessionManager.timerNotify.
  apply (timerNotify_loop_nothing now _ 0); [lia|lia|lia|].
  rewrite drop_0, Hsessions. apply Forall_forall. intros s Hs.
  apply list_elem_of_filter in Hs as [Hkeep _].
  unfold SessionManager.timed_out. by apply bool_decide_eq_false_2.
Qed.

(** X15.  A sweep of a registry with pairwise distinct ids returns, and for
    a live session whose timeout times 1000 fits a [long]: when the
    milliseconds since its last access exceed 1000 times its timeout, its id
    is not found any more; otherwise its id still finds it. *)
Theorem timerNotify_then_getSession
    (now : timespec) (m : SessionManager) (s : Session) :
  (Z.of_nat (length (sessions m)) < 2 ^ 64)%Z →
  NoDup (sessionID <$> sessions m) →
  s ∈ sessions m →
  long_range (1000 * timeout s) →
  ∃ m', timerNotify now m = Some m' ∧
        SessionManager.getSession (sessionID s) m'
        = if bool_decide (1000 * timeout s
                          < getDeltaMillis (last_access s) now)%Z
          then None else Some s.
Proof.
  intros Hsize Hnd Hs Hrange.
  destruct (timerNotify_loop_filter SESSION_TIMEOUT_CHECK_INTERVAL getDeltaMillis
              now (S (length (sessions m))) 0 m)
    as (m' & Hloop & _); [lia|done|lia|].
  exists m'. split; [done|].
  unfold SessionManager.getSession.
  rewrite (timerNotify_filter now m m' Hsize Hloop).
  rewrite getSession_loop_filter by done.
  rewrite (wrap_long_small _ Hrange).
  case_bool_decide; by case_decide.
Qed.

Lemma timerNotify_loop_timer (now : timespec) (fuel : nat) (i : Z)
    (m m' : SessionManager) :
  SessionManager.timer_in_sync m →
  timerNotify_loop fuel now i m = Some m' →
  timer m' = timer m
             ++ (if bool_decide (sessions m ≠ [] ∧ sessions m' = [])
                 then [RemoveTimerSubscriber] else []).
Proof.
  revert i m. induction fuel as [|fuel IH]; intros i m Hsync; simpl; [done|].
  case_bool_decide as Hi.
  2:{ intros [= <-]. rewrite bool_decide_eq_false_2 by naive_solver.
      by rewrite app_nil_r. }
  destruct (sessions m !! Z.to_nat i) as [session|] eqn:Hsession; [|done].
  destruct (timed_out now session); [|by apply IH].
  intros Hloop.
  assert (sessions m ≠ []) as Hne by (intros Hnil; by rewrite Hnil in Hsession).
  assert (timerAdded m = true) as Hadded by (by apply Hsync).
  pose proof (timerNotify_loop_sublist _ _ _ _ _ _ _ Hloop) as Hsub.
  rewrite checkTimer_sessions in Hsub. cbn [sessions SessionManager.with_sessions] in Hsub.
  apply IH in Hloop; [|apply checkTimer_in_sync].
  rewrite checkTimer_sessions in Hloop.
  cbn [sessions SessionManager.with_sessions] in Hloop.
  destruct (delete (Z.to_nat i) (sessions m)) as [|x l] eqn:Hdel.
  - apply sublist_nil_r in Hsub.
    rewrite Hloop, Hsub, bool_decide_eq_false_2 by naive_solver.
    rewrite bool_decide_eq_true_2 by done.
    rewrite app_nil_r.
    rewrite (checkTimer_unsubscribes SESSION_TIMEOUT_CHECK_INTERVAL); try done.
  - rewrite Hloop.
    assert (checkTimer (SessionManager.with_sessions (x :: l) m)
            = SessionManager.with_sessions (x :: l) m) as ->.
    { unfold SessionManager.checkTimer.
      cbn [sessions timerAdded SessionManager.with_sessions].
      rewrite Hadded. cbn [negb]. rewrite andb_false_r, andb_true_r.
      by rewrite bool_decide_eq_false_2 by (simpl; lia). }
    cbn [timer SessionManager.with_sessions].
    destruct (decide (sessions m' = [])) as [Hnil|Hnil].
    + by rewrite !bool_decide_eq_true_2 by done.
    + by rewrite !bool_decide_eq_false_2 by naive_solver.
Qed.

(** X16.  A sweep of a manager whose timer flag is in line returns, and the
    one timer call it can make is [removeTimerSubscriber], made exactly when
    it removes the last of the sessions. *)
Theorem timerNotify_unsubscribes_when_empty (now : timespec) (m : SessionManager) :
  (Z.of_nat (length (sessions m)) < 2 ^ 64)%Z →
  SessionManager.timer_in_sync m →
  ∃ m', timerNotify now m = Some m' ∧
        timer m' = timer m
                   ++ (if bool_decide (sessions m ≠ [] ∧ sessions m' = [])
                       then [RemoveTimerSubscriber] else []) ∧
        accounts m' = accounts m.
Proof.
  intros Hsize Hsync.
  destruct (timerNotify_loop_filter SESSION_TIMEOUT_CHECK_INTERVAL getDeltaMillis
              now (S (length (sessions m))) 0 m)
    as (m' & Hloop & _ & Haccounts); [lia|done|lia|].
  exists m'. split; [done|]. split; [|done].
  by eapply timerNotify_loop_timer.
Qed.

(** ** The timer call of each structural operation *)

Lemma checkTimer_settled (m : SessionManager) :
  SessionManager.timer_in_sync m → checkTimer m = m.
Proof.
  unfold SessionManager.timer_in_sync, SessionManager.checkTimer. intros Hsync.
  destruct (timerAdded m) eqn:Hadded, (sessions m) as [|x l] eqn:Hl; simpl.
  - exfalso. by apply (proj1 Hsync eq_refl).
  - done.
  - done.
  - exfalso. assert (false = true) as Habs by (by apply Hsync). discriminate Habs.
Qed.

(** X19.  On a manager whose timer flag is in line, [createSession] calls
    [addTimerSubscriber] exactly when it creates the first session, and
    [removeSession] calls [removeTimerSubscriber] exactly when it removes the
    last one; neither makes any other timer call. *)
Theorem timer_called_on_first_and_last (m : SessionManager) :
  SessionManager.timer_in_sync m →
  (∀ tmo now r s m' r',
     createSession tmo now r m = Some (Ok (s, m'), r') →
     timer m' = timer m
                ++ (if bool_decide (sessions m = [])
                    then [AddTimerSubscriber SESSION_TIMEOUT_CHECK_INTERVAL]
                    else [])) ∧
  (∀ sid,
     timer (removeSession sid m)
     = timer m
       ++ (if bool_decide (sessions m ≠ [] ∧ sessions (removeSession sid m) = [])
           then [RemoveTimerSubscriber] else [])).
Proof.
  intros Hsync. split.
  - intros tmo now r s m' r' Hcreate.
    unfold SessionManager.createSession in Hcreate.
    destruct (createSession_loop 102 0 r m) as [[[sid|what] r1]|]; [|done..].
    injection Hcreate as _ <- _.
    destruct (sessions m) as [|x l] eqn:Hl.
    + rewrite bool_decide_eq_true_2 by done.
      rewrite (checkTimer_subscribes SESSION_TIMEOUT_CHECK_INTERVAL); [done|done|].
      cbn [timerAdded SessionManager.with_sessions].
      destruct (timerAdded m) eqn:Hadded; [|done].
      exfalso. by apply (proj1 Hsync Hadded).
    + rewrite bool_decide_eq_false_2 by done.
      rewrite checkTimer_settled; [by rewrite app_nil_r|].
      unfold SessionManager.timer_in_sync.
      cbn [timerAdded sessions SessionManager.with_sessions].
      split; [done|]. intros _. apply Hsync. by rewrite Hl.
  - intros sid. unfold SessionManager.removeSession.
    destruct (removeSession_loop_cases SESSION_TIMEOUT_CHECK_INTERVAL sid 0
                (sessions m) m) as [->|[j ->]].
    + rewrite bool_decide_eq_false_2 by naive_solver. by rewrite app_nil_r.
    + rewrite checkTimer_sessions. cbn [sessions SessionManager.with_sessions].
      destruct (sessions m) as [|x l] eqn:Hl.
      * rewrite bool_decide_eq_false_2 by naive_solver.
        rewrite app_nil_r, checkTimer_settled; [done|].
        unfold SessionManager.timer_in_sync.
        cbn [timerAdded sessions SessionManager.with_sessions].
        assert (delete j ([] : list Session) = []) as -> by (by destruct j).
        unfold SessionManager.timer_in_sync in Hsync. by rewrite Hl in Hsync.
      * assert (timerAdded m = true) as Hadded by (apply Hsync; by rewrite Hl).
        destruct (delete j (x :: l)) as [|y k] eqn:Hdel.
        -- rewrite bool_decide_eq_true_2 by done.
           by rewrite (checkTimer_unsubscribes SESSION_TIMEOUT_CHECK_INTERVAL).
        -- rewrite bool_decide_eq_false_2 by naive_solver.
           rewrite app_nil_r, checkTimer_settled; [done|].
           unfold SessionManager.timer_in_sync.
           cbn [timerAdded sessions SessionManager.with_sessions]. by rewrite Hadded.
Qed.

(** ** The id of a new session *)

Lemma generated_ids_S (n : nat) (r : rng) :
  SessionManager.generated_ids rng generate_random_id (S n) r
  = (generate_random_id r).1
    :: SessionManager.generated_ids rng generate_random_id n (generate_random_id r).2.
Proof. simpl. by destruct (generate_random_id r). Qed.

Lemma createSession_loop_first_free (fuel : nat) (count : Z) (r r' : rng)
    (m : SessionManager) (sid : string) :
  createSession_loop fuel count r m = Some (Ok sid, r') →
  ∃ k, Forall (SessionManager.collides m)
         (SessionManager.generated_ids rng generate_random_id k r) ∧
       SessionManager.generated_ids rng generate_random_id (S k) r
       = SessionManager.generated_ids rng generate_random_id k r ++ [sid] ∧
       r' = Generator.after rng generate_random_id (S k) r.
Proof.
  revert count r. induction fuel as [|fuel IH]; intros count r; [done|].
  cbn [SessionManager.createSession_loop].
  rewrite (surjective_pairing (generate_random_id r)).
  case_bool_decide; [done|].
  destruct (SessionManager.getSession (generate_random_id r).1 m) as [s1|] eqn:Hget.
  - intros Hloop. apply IH in Hloop as (k & Hcollide & Hids & Hafter).
    exists (S k). split_and!.
    + rewrite generated_ids_S. apply Forall_cons. split; [|done].
      unfold SessionManager.collides. by rewrite Hget.
    + rewrite (generated_ids_S (S k)), Hids, (generated_ids_S k). done.
    + done.
  - intros [= <- <-]. exists 0. by rewrite generated_ids_S.
Qed.

(** X17.  [createSession] always comes back, with a session or an exception.
    The id of a session it creates is the first of the generated ids that no
    live session has, all the ids generated before it having collided, and
    the generator is left just after it. *)
Theorem createSession_first_free_id
    (tmo : Z) (now : timespec) (r : rng) (m : SessionManager) :
  (∃ res r', createSession tmo now r m = Some (res, r')) ∧
  (∀ s m' r', createSession tmo now r m = Some (Ok (s, m'), r') →
     ∃ k, Forall (SessionManager.collides m)
            (SessionManager.generated_ids rng generate_random_id k r) ∧
          SessionManager.generated_ids rng generate_random_id (S k) r
          = SessionManager.generated_ids rng generate_random_id k r ++ [sessionID s] ∧
          ¬ SessionManager.collides m (sessionID s) ∧
          r' = Generator.after rng generate_random_id (S k) r).
Proof.
  split; [apply createSession_total|].
  intros s m' r' Hcreate.
  destruct (createSession_appends _ _ _ _ _ _ _ _ _ _ Hcreate) as [Hfree _].
  unfold SessionManager.createSession in Hcreate.
  destruct (createSession_loop 102 0 r m) as [[[sid|what] r1]|] eqn:Hloop; [|done..].
  injection Hcreate as <- _ <-.
  apply createSession_loop_first_free in Hloop as (k & Hcollide & Hids & Hafter).
  exists k. split_and!; [done|done| |done].
  unfold SessionManager.collides. cbn [sessionID Session.setID] in Hfree.
  cbn [sessionID Session.setID]. rewrite Hfree. by intros [? [=]].
Qed.

(** ** From creation to expiry *)

(** X18.  A session created at one instant, with a timeout that times 1000
    fits a [long], and not touched since is gone after a sweep at a later
    instant exactly when the milliseconds between the two exceed 1000 times
    the timeout it was created with; otherwise [getSession] still finds
    it. *)
Theorem idle_session_swept
    (tmo : Z) (now later : timespec) (r r' : rng) (m m' : SessionManager)
    (s : Session) :
  (Z.of_nat (length (sessions m)) + 1 < 2 ^ 64)%Z →
  NoDup (sessionID <$> sessions m) →
  long_range (1000 * tmo) →
  createSession tmo now r m = Some (Ok (s, m'), r') →
  ∃ m'', timerNotify later m' = Some m'' ∧
         SessionManager.getSession (sessionID s) m''
         = if bool_decide (1000 * tmo < getDeltaMillis now later)%Z
           then None else Some s.
Proof.
  intros Hsize Hnd Hrange Hcreate.
  destruct (createSession_appends _ _ _ _ _ _ _ _ _ _ Hcreate) as [Hfree Hsessions].
  assert (timeout s = tmo ∧ last_access s = now) as [Htmo Hlast].
  { unfold SessionManager.createSession in Hcreate.
    destruct (createSession_loop 102 0 r m) as [[[sid|what] r1]|]; [|done..].
    by injection Hcreate as <- _ _. }
  assert (NoDup (sessionID <$> sessions m')) as Hnd'.
  { rewrite Hsessions, fmap_app. apply NoDup_app.
    split_and!; [done| |apply NoDup_singleton].
    intros x Hx Hx'. apply list_elem_of_singleton in Hx'. subst.
    by apply getSession_loop_None in Hfree. }
  assert (Z.of_nat (length (sessions m')) < 2 ^ 64)%Z as Hsize'
    by (rewrite Hsessions, length_app; simpl; lia).
  destruct (timerNotify_loop_filter SESSION_TIMEOUT_CHECK_INTERVAL getDeltaMillis
              later (S (length (sessions m'))) 0 m')
    as (m'' & Hloop & _); [lia|done|lia|].
  exists m''. split; [done|].
  unfold SessionManager.getSession.
  rewrite (timerNotify_filter later m' m'' Hsize' Hloop).
  rewrite getSession_loop_filter; [|done|].
  2:{ rewrite Hsessions. apply elem_of_app. right. left. }
  rewrite Htmo, Hlast, (wrap_long_small _ Hrange).
  case_bool_decide; by case_decide.
Qed.

End MoreManagerFacts.

(** * The further statements on concrete states *)

Lemma put_get_round_trip_witness :
  "pass" ≠ "user" ∧
  Session.get "user" (Session.put "user" "alice" Sample.two_pending) = "alice" ∧
  Session.get "pass" (Session.put "user" "alice" Sample.two_pending)
    = Session.get "pass" Sample.two_pending ∧
  Session.put "user" "bob" (Session.put "user" "alice" Sample.two_pending)
    = Session.put "user" "bob" Sample.two_pending.
Proof.
  assert ("pass" ≠ "user") as Hne by discriminate.
  destruct (put_get_round_trip Sample.two_pending "user" "pass" "alice" "bob")
    as (Hget & Hother & Hagain & _).
  split; [exact Hne|]. split; [exact Hget|]. split; [exact (Hother Hne)|exact Hagain].
Defined.

Lemma notification_leaves_updates_witness :
  7%Z ≠ Sample.invalid_id ∧ [7; 8]%Z ≠ [] ∧
  Session.hasUIUpdateIDs
    (Session.containerChangedUI Sample.invalid_id 7 Sample.nine_pending) = true ∧
  Session.hasUIUpdateIDs
    (Session.containerChangedUI_batch [7; 8]%Z Sample.nine_pending) = true.
Proof.
  assert (7%Z ≠ Sample.invalid_id) as Hvalid by (unfold Sample.invalid_id; lia).
  assert ([7; 8]%Z ≠ []) as Hne by discriminate.
  destruct (notification_leaves_updates Sample.invalid_id Sample.nine_pending 7 [7; 8]%Z)
    as [Hsingle Hbatch].
  split; [exact Hvalid|]. split; [exact Hne|].
  split; [exact (proj1 (Hsingle Hvalid)) | exact (proj1 (Hbatch Hne))].
Defined.

Lemma few_ids_reported_once_witness :
  (∀ X, Sample.order X ≡ₚ elements X) ∧
  (Sample.invalid_id ∉ [5; 5; 7]%Z) ∧
  size (list_to_set [5; 5; 7]%Z : gset Z) < 10 ∧
  let s := foldl (λ s objectID, Session.containerChangedUI Sample.invalid_id objectID s)
             (Session.new 60 (Sample.at_second 0)) [5; 5; 7]%Z in
  let r := Session.getUIUpdateIDs Sample.order s in
  (∃ l, NoDup l ∧ (∀ x, x ∈ l ↔ x ∈ [5; 5; 7]%Z) ∧
        r.1 = String.concat "," (pretty <$> l)) ∧
  r.2 = Session.new 60 (Sample.at_second 0).
Proof.
  assert (∀ X, Sample.order X ≡ₚ elements X) as Hperm by reflexivity.
  assert (Sample.invalid_id ∉ [5; 5; 7]%Z) as Hvalid
    by (apply (bool_decide_unpack _); by vm_compute).
  assert (size (list_to_set [5; 5; 7]%Z : gset Z) < 10) as Hsize
    by (vm_compute; lia).
  split; [exact Hperm|]. split; [exact Hvalid|]. split; [exact Hsize|].
  exact (few_ids_reported_once Sample.invalid_id Sample.order Hperm 60
           (Sample.at_second 0) [5; 5; 7]%Z Hvalid Hsize).
Defined.

Lemma hasUIUpdateIDs_announces_read_witness :
  (∀ X, Sample.order X ≡ₚ elements X) ∧
  Session.hasUIUpdateIDs Sample.two_pending = true ∧
  (Session.getUIUpdateIDs Sample.order Sample.two_pending).1 ≠ "" ∧
  Session.hasUIUpdateIDs (Session.new 60 (Sample.at_second 0)) = false ∧
  Session.getUIUpdateIDs Sample.order (Session.new 60 (Sample.at_second 0))
    = ("", Session.new 60 (Sample.at_second 0)).
Proof.
  assert (∀ X, Sample.order X ≡ₚ elements X) as Hperm by reflexivity.
  split; [exact Hperm|]. split; [reflexivity|].
  split; [exact (proj2 (hasUIUpdateIDs_announces_read Sample.order Hperm
                          Sample.two_pending) eq_refl)|].
  split; [reflexivity|].
  exact (proj1 (hasUIUpdateIDs_announces_read Sample.order Hperm
                  (Session.new 60 (Sample.at_second 0))) eq_refl).
Defined.

Lemma getUIUpdateIDs_clears_witness :
  (∀ X, Sample.order X ≡ₚ elements X) ∧
  Session.exclusive_modes Sample.two_pending ∧
  (Session.getUIUpdateIDs Sample.order Sample.two_pending).2
    = Session.clearUpdateIDs Sample.two_pending ∧
  Session.hasUIUpdateIDs (Session.getUIUpdateIDs Sample.order Sample.two_pending).2
    = false.
Proof.
  assert (∀ X, Sample.order X ≡ₚ elements X) as Hperm by reflexivity.
  assert (Session.exclusive_modes Sample.two_pending) as Hexcl
    by (intros Hall; discriminate Hall).
  split; [exact Hperm|]. split; [exact Hexcl|].
  exact (getUIUpdateIDs_clears Sample.order Hperm Sample.two_pending Hexcl).
Defined.

Lemma getSession_finds_by_id_witness :
  NoDup (sessionID <$> sessions Sample.three_sessions) ∧
  Sample.session "b" false 100 60 [] ∈ sessions Sample.three_sessions ∧
  SessionManager.getSession "b" Sample.three_sessions
    = Some (Sample.session "b" false 100 60 []) ∧
  (SessionManager.getSession "z" Sample.three_sessions = None
   ↔ "z" ∉ (sessionID <$> sessions Sample.three_sessions)).
Proof.
  assert (NoDup (sessionID <$> sessions Sample.three_sessions)) as Hnd
    by (apply (bool_decide_unpack _); by vm_compute).
  assert (Sample.session "b" false 100 60 [] ∈ sessions Sample.three_sessions)
    as Hin by (right; left).
  split; [exact Hnd|]. split; [exact Hin|].
  split.
  - exact (proj2 (proj2 (getSession_finds_by_id Sample.three_sessions "b")) Hnd _ Hin).
  - exact (proj1 (getSession_finds_by_id Sample.three_sessions "z")).
Defined.

Lemma createSession_then_getSession_witness :
  SessionManager.createSession Sample.interval nat (Sample.ids_then 0 "a" "b")
      60 (Sample.at_second 1) 0 (SessionManager.new Sample2.accts)
    = Some (Ok (Sample2.first_created, Sample2.after_create), 1) ∧
  SessionManager.getSession (sessionID Sample2.first_created) Sample2.after_create
    = Some Sample2.first_created ∧
  (∀ sid, sid ≠ sessionID Sample2.first_created →
     SessionManager.getSession sid Sample2.after_create
     = SessionManager.getSession sid (SessionManager.new Sample2.accts)).
Proof.
  assert (SessionManager.createSession Sample.interval nat (Sample.ids_then 0 "a" "b")
            60 (Sample.at_second 1) 0 (SessionManager.new Sample2.accts)
          = Some (Ok (Sample2.first_created, Sample2.after_create), 1)) as Hcreate
    by (by vm_compute).
  split; [exact Hcreate|].
  exact (createSession_then_getSession Sample.interval nat (Sample.ids_then 0 "a" "b")
           60 (Sample.at_second 1) 0 1 _ _ _ Hcreate).
Defined.

Lemma removeSession_removes_by_id_witness :
  NoDup (sessionID <$> sessions Sample.three_sessions) ∧
  "b" ∈ (sessionID <$> sessions Sample.three_sessions) ∧
  (let m' := SessionManager.removeSession Sample.interval "b" Sample.three_sessions in
   sessions m' = filter (λ x, sessionID x ≠ "b") (sessions Sample.three_sessions) ∧
   S (length (sessions m')) = length (sessions Sample.three_sessions) ∧
   SessionManager.getSession "b" m' = None ∧
   (∀ sid', sid' ≠ "b" →
      SessionManager.getSession sid' m'
      = SessionManager.getSession sid' Sample.three_sessions)) ∧
  ("z" ∉ sessionID <$> sessions Sample.three_sessions) ∧
  SessionManager.removeSession Sample.interval "z" Sample.three_sessions
    = Sample.three_sessions.
Proof.
  assert (NoDup (sessionID <$> sessions Sample.three_sessions)) as Hnd
    by (apply (bool_decide_unpack _); by vm_compute).
  assert ("b" ∈ (sessionID <$> sessions Sample.three_sessions)) as Hin
    by (right; left).
  assert ("z" ∉ (sessionID <$> sessions Sample.three_sessions)) as Hout
    by (apply (bool_decide_unpack _); by vm_compute).
  split; [exact Hnd|]. split; [exact Hin|].
  split;
    [exact (proj2 (removeSession_removes_by_id Sample.interval Sample.three_sessions "b")
              Hnd Hin)|].
  split; [exact Hout|].
  exact (proj1 (removeSession_removes_by_id Sample.interval Sample.three_sessions "z")
           Hout).
Defined.

Lemma new_session_not_notified_witness :
  SessionManager.createSession Sample.interval nat (Sample.ids_then 0 "a" "b")
      60 (Sample.at_second 1) 0 (SessionManager.new Sample2.accts)
    = Some (Ok (Sample2.first_created, Sample2.after_create), 1) ∧
  loggedIn Sample2.first_created = false ∧
  Session.hasUIUpdateIDs Sample2.first_created = false ∧
  timeout Sample2.first_created = 60%Z ∧
  last_access Sample2.first_created = Sample.at_second 1 ∧
  SessionManager.getSession (sessionID Sample2.first_created)
    (SessionManager.containerChangedUI Sample.invalid_id 7 Sample2.after_create)
    = Some Sample2.first_created ∧
  SessionManager.getSession (sessionID Sample2.first_created)
    (SessionManager.containerChangedUI_batch [7; 8]%Z Sample2.after_create)
    = Some Sample2.first_created.
Proof.
  assert (SessionManager.createSession Sample.interval nat (Sample.ids_then 0 "a" "b")
            60 (Sample.at_second 1) 0 (SessionManager.new Sample2.accts)
          = Some (Ok (Sample2.first_created, Sample2.after_create), 1)) as Hcreate
    by (by vm_compute).
  split; [exact Hcreate|].
  exact (new_session_not_notified Sample.invalid_id Sample.interval nat
           (Sample.ids_then 0 "a" "b") 60 (Sample.at_second 1) 0 1 _ _ _ 7 [7; 8]%Z
           Hcreate).
Defined.

Lemma manager_notification_reaches_logged_in_witness :
  7%Z ≠ Sample.invalid_id ∧
  let m' := SessionManager.containerChangedUI Sample.invalid_id 7 Sample.three_sessions in
  (∀ s, s ∈ sessions m' → loggedIn s = true → Session.hasUIUpdateIDs s = true) ∧
  sessionID <$> sessions m' = sessionID <$> sessions Sample.three_sessions ∧
  loggedIn <$> sessions m' = loggedIn <$> sessions Sample.three_sessions ∧
  (∀ sid, SessionManager.getSession sid m'
          = (λ s, if loggedIn s
                  then Session.containerChangedUI Sample.invalid_id 7 s
                  else s) <$> SessionManager.getSession sid Sample.three_sessions).
Proof.
  assert (7%Z ≠ Sample.invalid_id) as Hvalid by (unfold Sample.invalid_id; lia).
  split; [exact Hvalid|].
  exact (manager_notification_reaches_logged_in Sample.invalid_id 7
           Sample.three_sessions Hvalid).
Defined.

Lemma getUserPassword_from_configuration_witness :
  rtc (SessionManager.move Sample.interval Sample.delta_millis nat
         (Sample.ids_then 0 "a" "b"))
      (SessionManager.new Sample2.accts) Sample2.after_create ∧
  accounts Sample2.after_create = Sample2.accts ∧
  SessionManager.getUserPassword "alice" Sample2.after_create
    = SessionManager.getUserPassword "alice" (SessionManager.new Sample2.accts) ∧
  SessionManager.getUserPassword "alice"
    (SessionManager.containerChangedUI Sample.invalid_id 7 Sample2.after_create)
    = SessionManager.getUserPassword "alice" (SessionManager.new Sample2.accts) ∧
  SessionManager.getUserPassword "alice"
    (SessionManager.containerChangedUI_batch [7; 8]%Z Sample2.after_create)
    = SessionManager.getUserPassword "alice" (SessionManager.new Sample2.accts).
Proof.
  assert (rtc (SessionManager.move Sample.interval Sample.delta_millis nat
                 (Sample.ids_then 0 "a" "b"))
              (SessionManager.new Sample2.accts) Sample2.after_create) as Hreach.
  { apply rtc_once. left.
    apply (SessionManager.step_create _ _ _ _ _ 60 (Sample.at_second 1) 0
             Sample2.first_created Sample2.after_create 1).
    by vm_compute. }
  split; [exact Hreach|].
  exact (getUserPassword_from_configuration Sample.invalid_id Sample.interval
           Sample.delta_millis nat (Sample.ids_then 0 "a" "b") Sample2.accts
           Sample2.after_create "alice" 7 [7; 8]%Z Hreach).
Defined.

Lemma timer_calls_alternate_witness :
  rtc (SessionManager.move Sample.interval Sample.delta_millis nat
         (Sample.ids_then 0 "a" "b"))
      (SessionManager.new Sample2.accts) Sample2.after_create ∧
  Timer.replay false (timer Sample2.after_create)
    = Some (timerAdded Sample2.after_create).
Proof.
  assert (rtc (SessionManager.move Sample.interval Sample.delta_millis nat
                 (Sample.ids_then 0 "a" "b"))
              (SessionManager.new Sample2.accts) Sample2.after_create) as Hreach.
  { apply rtc_once. left.
    apply (SessionManager.step_create _ _ _ _ _ 60 (Sample.at_second 1) 0
             Sample2.first_created Sample2.after_create 1).
    by vm_compute. }
  split; [exact Hreach|].
  exact (timer_calls_alternate Sample.interval Sample.delta_millis nat
           (Sample.ids_then 0 "a" "b") Sample2.accts Sample2.after_create Hreach).
Defined.

Lemma timerNotify_idempotent_witness :
  let swept := Sample.manager [Sample.session "a" true 100 60 [5%Z]] true in
  (Z.of_nat (length (sessions Sample2.two_sessions)) < 2 ^ 64)%Z ∧
  SessionManager.timerNotify Sample.interval Sample.delta_millis (Sample.at_second 150)
    Sample2.two_sessions = Some swept ∧
  SessionManager.timerNotify Sample.interval Sample.delta_millis (Sample.at_second 150)
    swept = Some swept.
Proof.
  cbv zeta.
  assert (Z.of_nat (length (sessions Sample2.two_sessions)) < 2 ^ 64)%Z as Hsize
    by (vm_compute; reflexivity).
  assert (SessionManager.timerNotify Sample.interval Sample.delta_millis
            (Sample.at_second 150) Sample2.two_sessions
          = Some (Sample.manager [Sample.session "a" true 100 60 [5%Z]] true))
    as Hsweep by (by vm_compute).
  split; [exact Hsize|]. split; [exact Hsweep|].
  exact (timerNotify_idempotent Sample.interval Sample.delta_millis
           (Sample.at_second 150) Sample2.two_sessions _ Hsize Hsweep).
Defined.

Lemma timerNotify_then_getSession_witness :
  (Z.of_nat (length (sessions Sample2.two_sessions)) < 2 ^ 64)%Z ∧
  NoDup (sessionID <$> sessions Sample2.two_sessions) ∧
  Sample.session "c" true 0 10 [] ∈ sessions Sample2.two_sessions ∧
  long_range (1000 * timeout (Sample.session "c" true 0 10 [])) ∧
  ∃ m', SessionManager.timerNotify Sample.interval Sample.delta_millis
          (Sample.at_second 150) Sample2.two_sessions = Some m' ∧
        SessionManager.getSession (sessionID (Sample.session "c" true 0 10 [])) m'
        = if bool_decide
               (1000 * timeout (Sample.session "c" true 0 10 [])
                < Sample.delta_millis (last_access (Sample.session "c" true 0 10 []))
                    (Sample.at_second 150))%Z
          then None else Some (Sample.session "c" true 0 10 []).
Proof.
  assert (Z.of_nat (length (sessions Sample2.two_sessions)) < 2 ^ 64)%Z as Hsize
    by (vm_compute; reflexivity).
  assert (NoDup (sessionID <$> sessions Sample2.two_sessions)) as Hnd
    by (apply (bool_decide_unpack _); by vm_compute).
  assert (Sample.session "c" true 0 10 [] ∈ sessions Sample2.two_sessions) as Hin
    by left.
  assert (long_range (1000 * timeout (Sample.session "c" true 0 10 []))) as Hrange
    by (unfold long_range; split; by vm_compute).
  split; [exact Hsize|]. split; [exact Hnd|]. split; [exact Hin|].
  split; [exact Hrange|].
  exact (timerNotify_then_getSession Sample.interval Sample.delta_millis
           (Sample.at_second 150) Sample2.two_sessions _ Hsize Hnd Hin Hrange).
Defined.

Lemma timerNotify_unsubscribes_when_empty_witness :
  (Z.of_nat (length (sessions Sample2.two_sessions)) < 2 ^ 64)%Z ∧
  SessionManager.timer_in_sync Sample2.two_sessions ∧
  ∃ m', SessionManager.timerNotify Sample.interval Sample.delta_millis
          (Sample.at_second 1000) Sample2.two_sessions = Some m' ∧
        timer m' = timer Sample2.two_sessions
                   ++ (if bool_decide (sessions Sample2.two_sessions ≠ []
                                       ∧ sessions m' = [])
                       then [RemoveTimerSubscriber] else []) ∧
        accounts m' = accounts Sample2.two_sessions.
Proof.
  assert (Z.of_nat (length (sessions Sample2.two_sessions)) < 2 ^ 64)%Z as Hsize
    by (vm_compute; reflexivity).
  assert (SessionManager.timer_in_sync Sample2.two_sessions) as Hsync
    by (split; [discriminate | reflexivity]).
  split; [exact Hsize|]. split; [exact Hsync|].
  exact (timerNotify_unsubscribes_when_empty Sample.interval Sample.delta_millis
           (Sample.at_second 1000) Sample2.two_sessions Hsize Hsync).
Defined.

Lemma createSession_first_free_id_witness :
  let m := Sample.manager [Sample.session "a" true 0 60 []] true in
  let s := Session.setID "b" (Session.new 60 (Sample.at_second 1)) in
  let m' := Sample.manager [Sample.session "a" true 0 60 []; s] true in
  SessionManager.createSession Sample.interval nat (Sample.ids_then 3 "a" "b")
      60 (Sample.at_second 1) 0 m = Some (Ok (s, m'), 4) ∧
  ∃ k, Forall (SessionManager.collides m)
         (SessionManager.generated_ids nat (Sample.ids_then 3 "a" "b") k 0) ∧
       SessionManager.generated_ids nat (Sample.ids_then 3 "a" "b") (S k) 0
       = SessionManager.generated_ids nat (Sample.ids_then 3 "a" "b") k 0
         ++ [sessionID s] ∧
       ¬ SessionManager.collides m (sessionID s) ∧
       4 = Generator.after nat (Sample.ids_then 3 "a" "b") (S k) 0.
Proof.
  cbv zeta.
  assert (SessionManager.createSession Sample.interval nat (Sample.ids_then 3 "a" "b")
            60 (Sample.at_second 1) 0
            (Sample.manager [Sample.session "a" true 0 60 []] true)
          = Some (Ok (Session.setID "b" (Session.new 60 (Sample.at_second 1)),
                      Sample.manager
                        [Sample.session "a" true 0 60 [];
                         Session.setID "b" (Session.new 60 (Sample.at_second 1))] true),
                  4)) as Hcreate by (by vm_compute).
  split; [exact Hcreate|].
  exact (proj2 (createSession_first_free_id Sample.interval nat
                  (Sample.ids_then 3 "a" "b") 60 (Sample.at_second 1) 0 _)
           _ _ _ Hcreate).
Defined.

Lemma idle_session_swept_witness :
  (Z.of_nat (length (sessions (SessionManager.new Sample2.accts))) + 1 < 2 ^ 64)%Z ∧
  NoDup (sessionID <$> sessions (SessionManager.new Sample2.accts)) ∧
  long_range (1000 * 60) ∧
  SessionManager.createSession Sample.interval nat (Sample.ids_then 0 "a" "b")
      60 (Sample.at_second 1) 0 (SessionManager.new Sample2.accts)
    = Some (Ok (Sample2.first_created, Sample2.after_create), 1) ∧
  ∃ m'', SessionManager.timerNotify Sample.interval Sample.delta_millis
           (Sample.at_second 100) Sample2.after_create = Some m'' ∧
         SessionManager.getSession (sessionID Sample2.first_created) m''
         = if bool_decide (1000 * 60
                           < Sample.delta_millis (Sample.at_second 1)
                               (Sample.at_second 100))%Z
           then None else Some Sample2.first_created.
Proof.
  assert (Z.of_nat (length (sessions (SessionManager.new Sample2.accts))) + 1
          < 2 ^ 64)%Z as Hsize by (vm_compute; reflexivity).
  assert (NoDup (sessionID <$> sessions (SessionManager.new Sample2.accts))) as Hnd
    by apply NoDup_nil_2.
  assert (long_range (1000 * 60)) as Hrange
    by (unfold long_range; split; by vm_compute).
  assert (SessionManager.createSession Sample.interval nat (Sample.ids_then 0 "a" "b")
            60 (Sample.at_second 1) 0 (SessionManager.new Sample2.accts)
          = Some (Ok (Sample2.first_created, Sample2.after_create), 1)) as Hcreate
    by (by vm_compute).
  split; [exact Hsize|]. split; [exact Hnd|]. split; [exact Hrange|].
  split; [exact Hcreate|].
  exact (idle_session_swept Sample.interval Sample.delta_millis nat
           (Sample.ids_then 0 "a" "b") 60 (Sample.at_second 1) (Sample.at_second 100)
           0 1 _ _ _ Hsize Hnd Hrange Hcreate).
Defined.

Lemma timer_called_on_first_and_last_witness :
  SessionManager.timer_in_sync (SessionManager.new Sample2.accts) ∧
  SessionManager.createSession Sample.interval nat (Sample.ids_then 0 "a" "b")
      60 (Sample.at_second 1) 0 (SessionManager.new Sample2.accts)
    = Some (Ok (Sample2.first_created, Sample2.after_create), 1) ∧
  timer Sample2.after_create
    = timer (SessionManager.new Sample2.accts)
      ++ (if bool_decide (sessions (SessionManager.new Sample2.accts) = [])
          then [AddTimerSubscriber Sample.interval] else []) ∧
  timer (SessionManager.removeSession Sample.interval "z"
           (SessionManager.new Sample2.accts))
    = timer (SessionManager.new Sample2.accts)
      ++ (if bool_decide
               (sessions (SessionManager.new Sample2.accts) ≠ []
                ∧ sessions (SessionManager.removeSession Sample.interval "z"
                              (SessionManager.new Sample2.accts)) = [])
          then [RemoveTimerSubscriber] else []).
Proof.
  assert (SessionManager.timer_in_sync (SessionManager.new Sample2.accts)) as Hsync
    by (split; [discriminate | intros Hne; by destruct Hne]).
  assert (SessionManager.createSession Sample.interval nat (Sample.ids_then 0 "a" "b")
            60 (Sample.at_second 1) 0 (SessionManager.new Sample2.accts)
          = Some (Ok (Sample2.first_created, Sample2.after_create), 1)) as Hcreate
    by (by vm_compute).
  destruct (timer_called_on_first_and_last Sample.interval nat
              (Sample.ids_then 0 "a" "b") (SessionManager.new Sample2.accts) Hsync)
    as [Hadd Hremove].
  split; [exact Hsync|]. split; [exact Hcreate|].
  split; [exact (Hadd _ _ _ _ _ _ Hcreate) | exact (Hremove "z")].
Defined.
